(** * AI background remover: data-URL codec, remote request and UI shell

    A shallow embedding of [src/services/geminiService.ts] and of the state
    handling of [src/App.tsx], with the properties of the specification
    stated over it. *)

From Stdlib Require Import List NArith Ascii String Bool Arith Lia.
Import ListNotations.

Local Open Scope string_scope.
Local Open Scope list_scope.

(** ** JavaScript strings

    A JavaScript string is a sequence of UTF-16 code units.  A code unit is
    kept as a number, so that the two line terminators U+2028 and U+2029 the
    regular expression engine knows about are single elements. *)

Module JS.

Definition char16 := N.
Definition jsstring := list char16.

(** A string literal of the source (ASCII text). *)
Definition str (s : string) : jsstring :=
  map N_of_ascii (list_ascii_of_string s).
Arguments str s%_string.

(** [s.startsWith(prefix)] *)
Fixpoint startsWith (s prefix : jsstring) : bool :=
  match prefix, s with
  | [], _ => true
  | p :: prefix', c :: s' => N.eqb c p && startsWith s' prefix'
  | _ :: _, [] => false
  end.

(** LineTerminator :: <LF> | <CR> | <LS> | <PS> *)
Definition isLineTerminator (c : char16) : bool :=
  N.eqb c 10 || N.eqb c 13 || N.eqb c 8232 || N.eqb c 8233.

(** What a JavaScript [throw] carries: an instance of [Error] with its
    message, or any other value. *)
Inductive Thrown :=
| ErrorObject (message : jsstring)
| OtherValue (description : jsstring).

(** The completion of a call: a returned value or a thrown one (for an
    [async] function: the promise is fulfilled or rejected). *)
Inductive Completion (A : Type) :=
| Normal (a : A)
| Throw (e : Thrown).
Arguments Normal {A} a.
Arguments Throw {A} e.

End JS.
Import JS.

(** ** Regular expressions

    The fragment of ECMAScript patterns that [parseDataUrl] uses, run by a
    backtracking matcher in continuation-passing style, as the language
    specification describes it.  No flag is set: [.] excludes line
    terminators, [^] and [$] only hold at the two ends of the input, and
    characters compare exactly. *)

Module RegExp.

Inductive CharClass :=
| Char (c : char16)   (* a pattern character *)
| Dot.                (* . *)

Inductive Pattern :=
| AssertStart                       (* ^ *)
| AssertEnd                         (* $ *)
| Atom (cc : CharClass)
| Plus (cc : CharClass)             (* cc+, greedy *)
| Group (n : nat) (p : Pattern)     (* the n-th capturing parenthesis *)
| Seq (p q : Pattern).

Record MatchState := {
  endIndex : nat;                    (* code units consumed so far *)
  rest : jsstring;                   (* the input from endIndex on *)
  captures : list (nat * jsstring)   (* latest capture first *)
}.

Definition Continuation := MatchState -> option MatchState.

Definition classMatches (cc : CharClass) (c : char16) : bool :=
  match cc with
  | Char d => N.eqb c d
  | Dot => negb (isLineTerminator c)
  end.

(** Greedy repetition of a one-character atom, zero or more times: take one
    more character first, and fall back to the continuation where that
    fails. *)
Fixpoint repeatGreedy (cc : CharClass) (input : jsstring) (e : nat)
    (caps : list (nat * jsstring)) (k : Continuation) : option MatchState :=
  let here := {| endIndex := e; rest := input; captures := caps |} in
  match input with
  | c :: tl =>
      if classMatches cc c then
        match repeatGreedy cc tl (S e) caps k with
        | Some y => Some y
        | None => k here
        end
      else k here
  | [] => k here
  end.

Fixpoint run (p : Pattern) (x : MatchState) (k : Continuation)
    : option MatchState :=
  match p with
  | AssertStart => if Nat.eqb (endIndex x) 0 then k x else None
  | AssertEnd => match rest x with [] => k x | _ :: _ => None end
  | Atom cc =>
      match rest x with
      | c :: tl =>
          if classMatches cc c
          then k {| endIndex := S (endIndex x); rest := tl;
                    captures := captures x |}
          else None
      | [] => None
      end
  | Plus cc =>
      match rest x with
      | c :: tl =>
          if classMatches cc c
          then repeatGreedy cc tl (S (endIndex x)) (captures x) k
          else None
      | [] => None
      end
  | Group n q =>
      run q x (fun y =>
        k {| endIndex := endIndex y; rest := rest y;
             captures :=
               (n, firstn (endIndex y - endIndex x) (rest x)) :: captures y |})
  | Seq q1 q2 => run q1 x (fun y => run q2 y k)
  end.

(** The pattern of a literal run of characters. *)
Fixpoint literal (s : jsstring) (p : Pattern) : Pattern :=
  match s with
  | [] => p
  | c :: s' => Seq (Atom (Char c)) (literal s' p)
  end.

Record MatchResult := {
  index : nat;
  matched : jsstring;
  groups : list (nat * jsstring)
}.

(** RegExpBuiltinExec for a pattern without the global and sticky flags: try
    the match at index 0, then at 1, and so on up to the end of the input. *)
Fixpoint execFrom (p : Pattern) (i : nat) (input : jsstring)
    : option MatchResult :=
  match run p {| endIndex := i; rest := input; captures := [] |} Some with
  | Some y =>
      Some {| index := i; matched := firstn (endIndex y - i) input;
              groups := captures y |}
  | None =>
      match input with
      | [] => None
      | _ :: tl => execFrom p (S i) tl
      end
  end.

(** [s.match(p)]: [None] is JavaScript's [null]. *)
Definition stringMatch (s : jsstring) (p : Pattern) : option MatchResult :=
  execFrom p 0 s.

(** [m[n]] for n >= 1: [None] is [undefined] (the group took no part). *)
Fixpoint lookup (n : nat) (caps : list (nat * jsstring)) : option jsstring :=
  match caps with
  | [] => None
  | (i, s) :: caps' => if Nat.eqb i n then Some s else lookup n caps'
  end.

Definition group (m : MatchResult) (n : nat) : option jsstring :=
  lookup n (groups m).

End RegExp.
Import RegExp.

(** ** The world the program runs in

    The UI state of [App], what React has painted, the requests sent to the
    remote service and the hidden file input.  [processFile] and
    [removeImageBackground] are written in a small state-and-exception monad
    over it.  An asynchronous call is taken at the point where it has
    settled, and an event handler runs to its end before the next event;
    the lines written to the console are left out. *)

Module Runtime.

Inductive AppState := idle | processing | success | error.

Record UiState := {
  originalImage : option jsstring;     (* null is None *)
  processedImage : option jsstring;
  appState : AppState;
  errorMessage : jsstring
}.

Inductive Modality := IMAGE | TEXT.

(** The parts of the request: [{ inlineData: { data, mimeType } }] and
    [{ text }]. *)
Inductive RequestPart :=
| InlinePart (data mimeType : option jsstring)
| TextPart (text : jsstring).

Record Request := {
  model : jsstring;
  contents : list RequestPart;
  responseModalities : list Modality
}.

Record World := {
  ui : UiState;
  painted : list UiState;           (* states React has rendered, latest first *)
  network : list Request;           (* requests sent, latest first *)
  fileInput : option jsstring       (* value of fileInputRef.current, if mounted *)
}.

Definition Eff (A : Type) : Type := World -> Completion A * World.

Definition ret {A} (a : A) : Eff A := fun w => (Normal a, w).

Definition throw {A} (e : Thrown) : Eff A := fun w => (Throw e, w).

Definition bind {A B} (m : Eff A) (f : A -> Eff B) : Eff B :=
  fun w =>
    match m w with
    | (Normal a, w') => f a w'
    | (Throw e, w') => (Throw e, w')
    end.

(** [try { m } catch (e) { h e }] *)
Definition tryCatch {A} (m : Eff A) (h : Thrown -> Eff A) : Eff A :=
  fun w =>
    match m w with
    | (Normal a, w') => (Normal a, w')
    | (Throw e, w') => h e w'
    end.

(** The outcome of a call that has no effect on the world. *)
Definition lift {A} (c : Completion A) : Eff A := fun w => (c, w).

(** The handler yields to the event loop: React paints the pending state. *)
Definition commit (w : World) : World :=
  {| ui := ui w; painted := ui w :: painted w; network := network w;
     fileInput := fileInput w |}.

(** [await c] in the UI code. *)
Definition await {A} (m : Eff A) : Eff A := fun w => m (commit w).

Definition modifyUi (f : UiState -> UiState) : Eff unit :=
  fun w =>
    (Normal tt,
     {| ui := f (ui w); painted := painted w; network := network w;
        fileInput := fileInput w |}).

End Runtime.
Import Runtime.

Declare Scope eff_scope.
Delimit Scope eff_scope with eff.
Notation "x <- m ;; k" := (bind m (fun x => k))
  (at level 61, m at next level, right associativity) : eff_scope.
Notation "m ;; k" := (bind m (fun _ => k))
  (at level 61, right associativity) : eff_scope.
Local Open Scope eff_scope.

(** ** The service: [src/services/geminiService.ts] *)

Module GeminiService.

(** The response of the SDK, as far as the code reads it: the candidates,
    the content of a candidate, the parts of a content, the inline data of
    a part, and the finish reason.  The SDK may leave out each of them
    (None is [undefined]): a blocked answer comes without candidates, or
    with a candidate that has a finish reason and no content. *)
Record InlineData := { data : jsstring }.

Record Part := {
  inlineData : option InlineData;
  text : option jsstring
}.

Record Content := { parts : option (list Part) }.

Record Candidate := {
  content : option Content;
  finishReason : option jsstring
}.

Record GenerateContentResponse := {
  candidates : option (list Candidate)
}.

(** The ways in which [response.candidates[0].content.parts], read bare
    and looped over, meets [undefined]. *)
Inductive BadRead :=
| FirstOfUndefined       (* [candidates] is undefined *)
| ContentOfUndefined     (* [candidates[0]] is undefined *)
| PartsOfUndefined       (* [content] is undefined *)
| NotIterable.           (* [parts] is undefined *)

(** The constant [model]. *)
Definition modelName : jsstring := str "gemini-2.5-flash-image-preview".

Definition PROMPT : jsstring := str "
You are an expert image editor specializing in background removal.
Your task is to remove the background from the uploaded image with maximum precision.
- The subject must be perfectly intact.
- Preserve the original resolution.
- Keep all edges sharp and clean.
- Do not apply any compression, filters, or color changes to the subject.
- The output must be a PNG file with a fully transparent background.
".

Record ParsedDataUrl := {
  base64Data : option jsstring;
  mimeType : option jsstring
}.

Definition marker : jsstring := str ";base64,".

(** /^data:(.+);base64,(.+)$/ *)
Definition dataUrlPattern : Pattern :=
  Seq AssertStart
    (literal (str "data:")
      (Seq (Group 1 (Plus Dot))
        (literal marker
          (Seq (Group 2 (Plus Dot)) AssertEnd)))).

Definition invalidDataUrl : Thrown :=
  ErrorObject (str "Invalid data URL format").

Definition parseDataUrl (dataUrl : jsstring) : Completion ParsedDataUrl :=
  match stringMatch dataUrl dataUrlPattern with
  | None => Throw invalidDataUrl
  | Some m =>
      let mimeType := group m 1 in
      let base64Data := group m 2 in
      Normal {| base64Data := base64Data; mimeType := mimeType |}
  end.

(** [a === b] on strings. *)
Fixpoint strictEquals (a b : jsstring) : bool :=
  match a, b with
  | [], [] => true
  | c :: a', d :: b' => N.eqb c d && strictEquals a' b'
  | _, _ => false
  end.

(** [x !== 'STOP'] for a value that is a string or undefined. *)
Definition isNotStop (x : option jsstring) : bool :=
  match x with
  | Some s => negb (strictEquals s (str "STOP"))
  | None => true
  end.

(** A string or undefined inside a template literal. *)
Definition templateValue (x : option jsstring) : jsstring :=
  match x with
  | Some s => s
  | None => str "undefined"
  end.

(** The [for ... of] loop over the parts, with its early return. *)
Fixpoint firstInlineData (parts : list Part) : option jsstring :=
  match parts with
  | [] => None
  | part :: parts' =>
      match inlineData part with
      | Some blob => Some (data blob)
      | None => firstInlineData parts'
      end
  end.

Definition stoppedMessage (reason : option jsstring) : jsstring :=
  str "Processing was stopped due to: " ++ templateValue reason
    ++ str ". Please try a different image.".

Definition noImageMessage : jsstring :=
  str "No image data found in the API response.".

Definition apiErrorPrefix : jsstring := str "API Error: ".

Definition unknownApiError : Thrown :=
  ErrorObject
    (str "An unknown error occurred while communicating with the API.").

(** The argument of [generateContent]. *)
Definition requestOf (imagePart textPart : RequestPart) : Request :=
  {| model := modelName;
     contents := [imagePart; textPart];
     responseModalities := [IMAGE; TEXT] |}.

(** The request leaves: the world has one more request on the wire. *)
Definition recordRequest (req : Request) (w : World) : World :=
  {| ui := ui w; painted := painted w; network := req :: network w;
     fileInput := fileInput w |}.

Section Service.

(** [ai.models.generateContent] of the SDK: how the call settles, given the
    requests sent before it and the request itself. *)
Variable generateContent :
  list Request -> Request -> Completion GenerateContentResponse.

(** The message of the TypeError the engine raises for each of these. *)
Variable typeErrorMessage : BadRead -> jsstring.

Definition callGenerateContent (req : Request)
    : Eff GenerateContentResponse :=
  fun w => (generateContent (network w) req, recordRequest req w).

(** The body of the [try] block. *)
Definition remoteCallSection (imagePart textPart : RequestPart)
    : Eff jsstring :=
  response <- callGenerateContent (requestOf imagePart textPart) ;;
  first <- match candidates response with
           | None => throw (ErrorObject (typeErrorMessage FirstOfUndefined))
           | Some [] =>
               throw (ErrorObject (typeErrorMessage ContentOfUndefined))
           | Some (candidate :: _) => ret candidate
           end ;;
  looped <- match content first with
            | None => throw (ErrorObject (typeErrorMessage PartsOfUndefined))
            | Some body =>
                match parts body with
                | None => throw (ErrorObject (typeErrorMessage NotIterable))
                | Some array => ret array
                end
            end ;;
  match firstInlineData looped with
  | Some found => ret found
  | None =>
      if isNotStop (finishReason first)
      then throw (ErrorObject (stoppedMessage (finishReason first)))
      else throw (ErrorObject noImageMessage)
  end.

(** The [catch] block. *)
Definition rethrowApiError {A} (error : Thrown) : Eff A :=
  match error with
  | ErrorObject message => throw (ErrorObject (apiErrorPrefix ++ message))
  | OtherValue _ => throw unknownApiError
  end.

Definition removeImageBackground (dataUrl : jsstring) : Eff jsstring :=
  parsed <- lift (parseDataUrl dataUrl) ;;
  let imagePart := InlinePart (base64Data parsed) (mimeType parsed) in
  let textPart := TextPart PROMPT in
  tryCatch (remoteCallSection imagePart textPart) rethrowApiError.

End Service.

End GeminiService.
Import GeminiService.

(** ** The shell: [src/App.tsx] *)

Module App.

Record File := {
  type : jsstring;       (* the declared media type *)
  bytes : jsstring       (* the contents, read only by fileToDataUrl *)
}.

Definition setOriginalImage (v : option jsstring) : Eff unit :=
  modifyUi (fun s =>
    {| originalImage := v; processedImage := processedImage s;
       appState := appState s; errorMessage := errorMessage s |}).

Definition setProcessedImage (v : option jsstring) : Eff unit :=
  modifyUi (fun s =>
    {| originalImage := originalImage s; processedImage := v;
       appState := appState s; errorMessage := errorMessage s |}).

Definition setAppState (v : AppState) : Eff unit :=
  modifyUi (fun s =>
    {| originalImage := originalImage s; processedImage := processedImage s;
       appState := v; errorMessage := errorMessage s |}).

Definition setErrorMessage (v : jsstring) : Eff unit :=
  modifyUi (fun s =>
    {| originalImage := originalImage s; processedImage := processedImage s;
       appState := appState s; errorMessage := v |}).

Definition invalidFileMessage : jsstring :=
  str "Please upload a valid image file.".

Definition pngPrefix : jsstring := str "data:image/png;base64,".

(** The state of the four [useState] hooks at the first render. *)
Definition initialUi : UiState :=
  {| originalImage := None; processedImage := None; appState := idle;
     errorMessage := [] |}.

Definition initialWorld : World :=
  {| ui := initialUi; painted := [initialUi]; network := [];
     fileInput := Some [] |}.

Section Shell.

Variable generateContent :
  list Request -> Request -> Completion GenerateContentResponse.
Variable typeErrorMessage : BadRead -> jsstring.

(** [fileToDataUrl] of [./utils/fileUtils], which is not among the sources:
    how reading the file as a data URL settles. *)
Variable fileToDataUrl : File -> Completion jsstring.

Definition processFile (file : File) : Eff unit :=
  if negb (startsWith (type file) (str "image/")) then
    setErrorMessage invalidFileMessage ;;
    setAppState error ;;
    ret tt
  else
    setAppState processing ;;
    setProcessedImage None ;;
    setErrorMessage [] ;;
    tryCatch
      (dataUrl <- await (lift (fileToDataUrl file)) ;;
       setOriginalImage (Some dataUrl) ;;
       resultBase64 <-
         await (removeImageBackground generateContent typeErrorMessage
                  dataUrl) ;;
       let resultDataUrl := pngPrefix ++ resultBase64 in
       setProcessedImage (Some resultDataUrl) ;;
       setAppState success)
      (fun err =>
         let message :=
           match err with
           | ErrorObject m => m
           | OtherValue _ => str "An unknown error occurred."
           end in
         setErrorMessage (str "Failed to process image. " ++ message) ;;
         setAppState error ;;
         setOriginalImage None).

(** [event.target.files?.[0]] is the file, if any. *)
Definition handleFileChange (file : option File) : Eff unit :=
  match file with
  | Some f => processFile f
  | None => ret tt
  end.

(** [event.dataTransfer.files?.[0]] is the file, if any. *)
Definition handleDrop (file : option File) : Eff unit :=
  fun w =>
    match appState (ui w) with
    | processing => ret tt w
    | _ =>
        match file with
        | Some f => processFile f w
        | None => ret tt w
        end
    end.

Definition handleReset : Eff unit :=
  setOriginalImage None ;;
  setProcessedImage None ;;
  setAppState idle ;;
  setErrorMessage [] ;;
  fun w =>
    match fileInput w with
    | Some _ =>
        (Normal tt,
         {| ui := ui w; painted := painted w; network := network w;
            fileInput := Some [] |})
    | None => (Normal tt, w)
    end.

Inductive Event :=
| FileChange (file : option File)
| Drop (file : option File)
| Reset.

Definition handle (ev : Event) : Eff unit :=
  match ev with
  | FileChange file => handleFileChange file
  | Drop file => handleDrop file
  | Reset => handleReset
  end.

(** An event is handled to its end, and the result is painted. *)
Definition dispatch (w : World) (ev : Event) : World :=
  commit (snd (handle ev w)).

Definition runEvents (evs : list Event) : World :=
  fold_left dispatch evs initialWorld.

End Shell.

End App.
Import App.

(** ** The texts the codec is asked about *)

Module DataUrl.

(** What [.] accepts: no line terminator anywhere. *)
Definition oneLine (s : jsstring) : bool :=
  forallb (fun c => negb (isLineTerminator c)) s.

Definition semicolon : char16 := 59%N.
Definition comma : char16 := 44%N.

(** The text [data:T;base64,P]. *)
Definition dataUrl (T P : jsstring) : jsstring :=
  str "data:" ++ T ++ marker ++ P.

(** The base64 alphabet: letters, digits, [+], [/] and the padding [=]. *)
Definition isBase64Char (c : char16) : bool :=
  (N.leb 65 c && N.leb c 90) || (N.leb 97 c && N.leb c 122)
  || (N.leb 48 c && N.leb c 57)
  || N.eqb c 43 || N.eqb c 47 || N.eqb c 61.

(** A base64 payload: at least one character, all of the alphabet. *)
Definition isBase64Payload (P : jsstring) : bool :=
  match P with
  | [] => false
  | _ :: _ => forallb isBase64Char P
  end.

(** A media type such as [image/png], read as generously as can be: any
    text of at least one character on one line. *)
Definition isMediaType (T : jsstring) : bool :=
  match T with
  | [] => false
  | _ :: _ => oneLine T
  end.

(** The shape [data:<media-type>;base64,<payload>] the pattern stands for:
    both parts are present and the text has a single line. *)
Definition dataUrlShape (s : jsstring) : Prop :=
  exists T P,
    T <> [] /\ P <> [] /\ oneLine T = true /\ oneLine P = true
    /\ s = dataUrl T P.

End DataUrl.
Import DataUrl.

(** ** Sample files, remote services and worlds *)

Module Examples.

Definition pngFile : File :=
  {| type := str "image/png"; bytes := str "PNG" |}.

Definition textFile : File :=
  {| type := str "text/plain"; bytes := str "hello" |}.

Definition pngDataUrl : jsstring := str "data:image/png;base64,iVBORw0KGgo=".

(** A reader that encodes every file to the same payload under its own
    declared type. *)
Definition readAsDataUrl (file : File) : Completion jsstring :=
  Normal (dataUrl (type file) (str "iVBORw0KGgo=")).

Definition textOnly (t : jsstring) : Part :=
  {| inlineData := None; text := Some t |}.

Definition inline (d : jsstring) : Part :=
  {| inlineData := Some {| data := d |}; text := None |}.

(** A candidate with content parts. *)
Definition candidateWith (array : list Part) (reason : option jsstring)
    : Candidate :=
  {| content := Some {| parts := Some array |}; finishReason := reason |}.

(** A remote service that answers every request with one candidate. *)
Definition respond (array : list Part) (reason : option jsstring)
    : list Request -> Request -> Completion GenerateContentResponse :=
  fun _ _ => Normal {| candidates := Some [candidateWith array reason] |}.

(** A remote call that is rejected. *)
Definition reject (e : Thrown)
    : list Request -> Request -> Completion GenerateContentResponse :=
  fun _ _ => Throw e.

(** The texts the V8 engine gives. *)
Definition typeError (read : BadRead) : jsstring :=
  match read with
  | FirstOfUndefined =>
      str "Cannot read properties of undefined (reading '0')"
  | ContentOfUndefined =>
      str "Cannot read properties of undefined (reading 'content')"
  | PartsOfUndefined =>
      str "Cannot read properties of undefined (reading 'parts')"
  | NotIterable =>
      str "response.candidates[0].content.parts is not iterable"
  end.

Definition pngParsed : ParsedDataUrl :=
  {| base64Data := Some (str "iVBORw0KGgo=");
     mimeType := Some (str "image/png") |}.

(** The world while the request for [pngFile] is in flight. *)
Definition inFlight : World :=
  let started :=
    {| originalImage := None; processedImage := None;
       appState := processing; errorMessage := [] |} in
  let loaded :=
    {| originalImage := Some pngDataUrl; processedImage := None;
       appState := processing; errorMessage := [] |} in
  {| ui := loaded;
     painted := [loaded; started; initialUi];
     network :=
       [requestOf (InlinePart (base64Data pngParsed) (mimeType pngParsed))
          (TextPart PROMPT)];
     fileInput := Some (str "photo.png") |}.

End Examples.
Import Examples.

(** ** The shell between its awaits

    [processFile] yields to the event loop at each of its two awaits.  Here
    an attempt is cut at these places, so that other events, and other
    attempts, can come in between: the run-to-completion [processFile]
    above is the case where nothing does. *)

Module EventLoop.

(** An attempt that waits at one of the awaits of [processFile]. *)
Inductive Pending :=
| Reading (file : File)
    (* at [await fileToDataUrl(file)] *)
| Calling (outcome : Completion jsstring).
    (* at [await removeImageBackground(dataUrl)], with what the call, once
       sent, settles to *)

Record Machine := {
  world : World;
  pending : list Pending
}.

(** The [catch] block of [processFile]. *)
Definition catchBlock (err : Thrown) : Eff unit :=
  let message :=
    match err with
    | ErrorObject m => m
    | OtherValue _ => str "An unknown error occurred."
    end in
  setErrorMessage (str "Failed to process image. " ++ message) ;;
  setAppState error ;;
  setOriginalImage None.

Definition spawned (c : Completion (list Pending)) : list Pending :=
  match c with
  | Normal l => l
  | Throw _ => []
  end.

Fixpoint removeNth {A} (i : nat) (l : list A) : list A :=
  match i, l with
  | _, [] => []
  | 0, _ :: l' => l'
  | S i', a :: l' => a :: removeNth i' l'
  end.

(** What the event loop does next: an event of the user, or the i-th
    waiting attempt goes on. *)
Inductive Action :=
| Fire (ev : Event)
| Settle (i : nat).

Definition isReading (p : Pending) : bool :=
  match p with
  | Reading _ => true
  | Calling _ => false
  end.

(** The events that hand a file to the shell. *)
Definition bringsFile (a : Action) : bool :=
  match a with
  | Fire (FileChange (Some _)) | Fire (Drop (Some _)) => true
  | _ => false
  end.

Section Loop.

Variable generateContent :
  list Request -> Request -> Completion GenerateContentResponse.
Variable typeErrorMessage : BadRead -> jsstring.
Variable fileToDataUrl : File -> Completion jsstring.

(** [processFile] up to its first await. *)
Definition processFileStart (file : File) : Eff (list Pending) :=
  if negb (startsWith (type file) (str "image/")) then
    setErrorMessage invalidFileMessage ;;
    setAppState error ;;
    ret []
  else
    setAppState processing ;;
    setProcessedImage None ;;
    setErrorMessage [] ;;
    ret [Reading file].

(** [processFile] from an await on: from the first to the second, where
    the request leaves, or from the second to the end. *)
Definition resume (p : Pending) : Eff (list Pending) :=
  match p with
  | Reading file =>
      match fileToDataUrl file with
      | Normal dataUrl =>
          setOriginalImage (Some dataUrl) ;;
          fun w =>
            let (outcome, w') :=
              removeImageBackground generateContent typeErrorMessage
                dataUrl w in
            (Normal [Calling outcome], w')
      | Throw err => catchBlock err ;; ret []
      end
  | Calling (Normal resultBase64) =>
      let resultDataUrl := pngPrefix ++ resultBase64 in
      setProcessedImage (Some resultDataUrl) ;;
      setAppState success ;;
      ret []
  | Calling (Throw err) => catchBlock err ;; ret []
  end.

(** The handlers, up to the first await of the attempt they start. *)
Definition fire (ev : Event) : Eff (list Pending) :=
  match ev with
  | FileChange (Some f) => processFileStart f
  | FileChange None => ret []
  | Drop file =>
      fun w =>
        match appState (ui w) with
        | processing => ret [] w
        | _ =>
            match file with
            | Some f => processFileStart f w
            | None => ret [] w
            end
        end
  | Reset => handleReset ;; ret []
  end.

Definition step (m : Machine) (a : Action) : Machine :=
  match a with
  | Fire ev =>
      let (r, w) := fire ev (world m) in
      {| world := commit w; pending := pending m ++ spawned r |}
  | Settle i =>
      match nth_error (pending m) i with
      | Some p =>
          let (r, w) := resume p (world m) in
          {| world := commit w;
             pending := removeNth i (pending m) ++ spawned r |}
      | None => m
      end
  end.

Definition initialMachine : Machine :=
  {| world := initialWorld; pending := [] |}.

Definition runActions (acts : list Action) : Machine :=
  fold_left step acts initialMachine.

End Loop.

End EventLoop.
Import EventLoop.

(** ** What is on the screen: the JSX of [App] and of [ImageDisplay]

    Only what decides which element is shown is kept; class names and
    fixed texts are left out. *)

Module View.

(** A string or null as a condition. *)
Definition truthy (v : option jsstring) : bool :=
  match v with
  | Some (_ :: _) => true
  | _ => false
  end.

Definition isState (a b : AppState) : bool :=
  match a, b with
  | idle, idle | processing, processing | success, success
  | error, error => true
  | _, _ => false
  end.

Inductive Element :=
| UploadButton
| ResultImage (src : jsstring)
| ErrorDisplay (message : jsstring).

Inductive PaneBody :=
| Spinner
| Picture (src alt : jsstring)
| Children (child : option Element).

Record Pane := {
  title : jsstring;
  body : PaneBody;
  onDrop : bool          (* whether the drop handlers are attached *)
}.

(** [src/components/ImageDisplay.tsx]; [isLoading] is false where [App]
    leaves it out, [imageSrc] is None. *)
Definition ImageDisplay (title : jsstring) (imageSrc : option jsstring)
    (isLoading : bool) (children : option Element) (onDrop : bool) : Pane :=
  {| title := title;
     body :=
       if isLoading then Spinner
       else
         match imageSrc with
         | Some (c :: src) => Picture (c :: src) title
         | _ => Children children
         end;
     onDrop := onDrop |}.

Record Screen := {
  original : Pane;
  result : Pane;
  footer : option bool
    (* None: no footer; Some d: 'Remove Another', and 'Download PNG' if d *)
}.

(** The [return] of [App]. *)
Definition render (s : UiState) : Screen :=
  {| original :=
       ImageDisplay (str "Original") (originalImage s) false
         (if isState (appState s) idle && negb (truthy (originalImage s))
          then Some UploadButton else None)
         true;
     result :=
       ImageDisplay (str "Result") None (isState (appState s) processing)
         (if isState (appState s) success && truthy (processedImage s)
          then option_map ResultImage (processedImage s)
          else if isState (appState s) error
               then Some (ErrorDisplay (errorMessage s)) else None)
         false;
     footer :=
       if negb (isState (appState s) idle)
       then Some (isState (appState s) success) else None |}.

(** The calls [handleDownload] makes on the document, in order. *)
Inductive DomCall :=
| CreateAnchor
| SetHref (value : jsstring)
| SetDownload (value : jsstring)
| AppendToBody
| Click
| RemoveFromBody.

Definition handleDownload (s : UiState) : list DomCall :=
  match processedImage s with
  | Some (c :: image) =>
      [CreateAnchor; SetHref (c :: image);
       SetDownload (str "background-removed.png");
       AppendToBody; Click; RemoveFromBody]
  | _ => []
  end.

End View.
Import View.

(** ** More sample worlds *)

Module MoreExamples.


(** A remote service that answers without a candidate. *)
Definition noCandidates
    : list Request -> Request -> Completion GenerateContentResponse :=
  fun _ _ => Normal {| candidates := Some [] |}.

(** A remote service whose answer has no candidates at all, as when the
    prompt is blocked. *)
Definition promptBlocked
    : list Request -> Request -> Completion GenerateContentResponse :=
  fun _ _ => Normal {| candidates := None |}.

(** A remote service whose one candidate has a finish reason and no
    content, as when the answer is blocked. *)
Definition withoutContent (reason : option jsstring)
    : list Request -> Request -> Completion GenerateContentResponse :=
  fun _ _ =>
    Normal {| candidates :=
                Some [{| content := None; finishReason := reason |}] |}.

(** A remote service whose one candidate has a content without parts. *)
Definition withoutParts (reason : option jsstring)
    : list Request -> Request -> Completion GenerateContentResponse :=
  fun _ _ =>
    Normal {| candidates :=
                Some [{| content := Some {| parts := None |};
                         finishReason := reason |}] |}.

Definition pngRequest : Request :=
  requestOf (InlinePart (base64Data pngParsed) (mimeType pngParsed))
    (TextPart PROMPT).

(** The UI after a file that is no image was turned down. *)
Definition turnedDown : World :=
  {| ui := {| originalImage := None; processedImage := None;
              appState := error; errorMessage := invalidFileMessage |};
     painted := [initialUi]; network := []; fileInput := Some [] |}.

(** An attempt for [pngFile] whose request is on the wire and will be
    answered with the image 'UE5H'. *)
Definition awaitingAnswer : Machine :=
  {| world := inFlight; pending := [Calling (Normal (str "UE5H"))] |}.

End MoreExamples.
Import MoreExamples.

(** ** The matcher *)

Section Matcher.

Lemma run_literal_app (s : jsstring) (p : Pattern) e r caps k :
  run (literal s p) {| endIndex := e; rest := s ++ r; captures := caps |} k
  = run p {| endIndex := e + List.length s; rest := r; captures := caps |} k.
Proof.
  revert e; induction s as [|c s IH]; intros e; simpl.
  - now rewrite Nat.add_0_r.
  - rewrite N.eqb_refl, IH.
    now replace (e + S (List.length s)) with (S e + List.length s) by lia.
Qed.

Lemma run_literal_some (s : jsstring) (p : Pattern) x k y :
  run (literal s p) x k = Some y ->
  exists r, rest x = s ++ r /\
    run p {| endIndex := endIndex x + List.length s; rest := r;
             captures := captures x |} k = Some y.
Proof.
  revert x; induction s as [|c s IH]; intros [e inp caps]; simpl.
  - intros H. exists inp. split; [reflexivity|]. now rewrite Nat.add_0_r.
  - destruct inp as [|d tl]; [discriminate|].
    destruct (N.eqb_spec d c) as [->|]; [|discriminate].
    intros H. apply IH in H. simpl in H. destruct H as (r & -> & H).
    exists r. split; [reflexivity|].
    now replace (e + S (List.length s)) with (S e + List.length s) by lia.
Qed.

Lemma repeatGreedy_sound cc input e caps k y :
  repeatGreedy cc input e caps k = Some y ->
  exists u v, input = u ++ v /\ forallb (classMatches cc) u = true /\
    k {| endIndex := e + List.length u; rest := v; captures := caps |} = Some y.
Proof.
  revert e; induction input as [|c tl IH]; intros e; simpl.
  - intros H. exists [], []. simpl. now rewrite Nat.add_0_r.
  - destruct (classMatches cc c) eqn:Hc.
    + destruct (repeatGreedy cc tl (S e) caps k) as [y'|] eqn:Hrec.
      * intros [= <-]. apply IH in Hrec. destruct Hrec as (u & v & -> & Hu & Hk).
        exists (c :: u), v. simpl. rewrite Hc, Hu.
        now replace (e + S (List.length u)) with (S e + List.length u) by lia.
      * intros H. exists [], (c :: tl). simpl. now rewrite Nat.add_0_r.
    + intros H. exists [], (c :: tl). simpl. now rewrite Nat.add_0_r.
Qed.

Lemma repeatGreedy_fallback cc v e caps k :
  (forall w1 w2, v = w1 ++ w2 -> w1 <> [] ->
     k {| endIndex := e + List.length w1; rest := w2; captures := caps |}
     = None) ->
  repeatGreedy cc v e caps k
  = k {| endIndex := e; rest := v; captures := caps |}.
Proof.
  revert e; induction v as [|d v IHv]; intros e Hmax; simpl.
  - reflexivity.
  - destruct (classMatches cc d); [|reflexivity].
    rewrite IHv.
    + assert (H1 := Hmax [d] v eq_refl). simpl in H1.
      replace (e + 1) with (S e) in H1 by lia.
      rewrite H1; [reflexivity | discriminate].
    + intros w1 w2 -> Hw1.
      replace (S e + List.length w1) with (e + List.length (d :: w1))
        by (simpl; lia).
      apply Hmax; [reflexivity | discriminate].
Qed.

(** Where the continuation succeeds on a run and fails on every longer
    one, the greedy loop returns what it gives on that run. *)
Lemma repeatGreedy_longest cc u v e caps k y :
  forallb (classMatches cc) u = true ->
  (forall w1 w2, v = w1 ++ w2 -> w1 <> [] ->
     k {| endIndex := e + List.length u + List.length w1; rest := w2;
          captures := caps |} = None) ->
  k {| endIndex := e + List.length u; rest := v; captures := caps |}
  = Some y ->
  repeatGreedy cc (u ++ v) e caps k = Some y.
Proof.
  revert e; induction u as [|c u IH]; intros e Hu Hmax Hk.
  - simpl in *. rewrite Nat.add_0_r in *. rewrite repeatGreedy_fallback; auto.
  - simpl in Hu. apply andb_prop in Hu as [Hc Hu]. simpl. rewrite Hc.
    replace (e + List.length (c :: u)) with (S e + List.length u) in *
      by (simpl; lia).
    now rewrite (IH (S e) Hu Hmax Hk).
Qed.

Lemma repeatGreedy_complete cc u v e caps k y :
  forallb (classMatches cc) u = true ->
  k {| endIndex := e + List.length u; rest := v; captures := caps |} = Some y ->
  exists y', repeatGreedy cc (u ++ v) e caps k = Some y'.
Proof.
  revert e; induction u as [|c u IH]; intros e Hu Hk.
  - simpl in *. rewrite Nat.add_0_r in Hk.
    destruct v as [|d v]; simpl; [eauto|].
    destruct (classMatches cc d); [|eauto].
    destruct (repeatGreedy cc v (S e) caps k); eauto.
  - simpl in Hu. apply andb_prop in Hu as [Hc Hu]. simpl. rewrite Hc.
    destruct (IH (S e) Hu) as [y' ->]; [|eauto].
    now replace (S e + List.length u) with (e + List.length (c :: u)) by (simpl; lia).
Qed.

Lemma run_plus_some cc x k y :
  run (Plus cc) x k = Some y ->
  exists u v, u <> [] /\ rest x = u ++ v /\
    forallb (classMatches cc) u = true /\
    k {| endIndex := endIndex x + List.length u; rest := v;
         captures := captures x |} = Some y.
Proof.
  destruct x as [e inp caps]; simpl.
  destruct inp as [|c tl]; [discriminate|].
  destruct (classMatches cc c) eqn:Hc; [|discriminate].
  intros H. apply repeatGreedy_sound in H. destruct H as (u & v & -> & Hu & Hk).
  exists (c :: u), v. simpl. rewrite Hc, Hu.
  repeat split; [discriminate|].
  now replace (e + S (List.length u)) with (S e + List.length u) by lia.
Qed.

Lemma run_plus_longest cc x u v k y :
  rest x = u ++ v -> u <> [] ->
  forallb (classMatches cc) u = true ->
  (forall w1 w2, v = w1 ++ w2 -> w1 <> [] ->
     k {| endIndex := endIndex x + List.length u + List.length w1;
          rest := w2; captures := captures x |} = None) ->
  k {| endIndex := endIndex x + List.length u; rest := v;
       captures := captures x |} = Some y ->
  run (Plus cc) x k = Some y.
Proof.
  destruct x as [e inp caps]; simpl. intros -> Hne Hu Hmax Hk.
  destruct u as [|c u]; [congruence|]. simpl in *.
  apply andb_prop in Hu as [Hc Hu]. rewrite Hc.
  replace (e + S (List.length u)) with (S e + List.length u) in * by lia.
  now apply repeatGreedy_longest.
Qed.

Lemma run_plus_complete cc x u v k y :
  rest x = u ++ v -> u <> [] ->
  forallb (classMatches cc) u = true ->
  k {| endIndex := endIndex x + List.length u; rest := v;
       captures := captures x |} = Some y ->
  exists y', run (Plus cc) x k = Some y'.
Proof.
  destruct x as [e inp caps]; simpl. intros -> Hne Hu Hk.
  destruct u as [|c u]; [congruence|]. simpl in *.
  apply andb_prop in Hu as [Hc Hu]. rewrite Hc.
  replace (e + S (List.length u)) with (S e + List.length u) in * by lia.
  eapply repeatGreedy_complete; eauto.
Qed.

Lemma firstn_span (e : nat) (u v : jsstring) :
  firstn (e + List.length u - e) (u ++ v) = u.
Proof.
  replace (e + List.length u - e) with (List.length u + 0) by lia.
  now rewrite firstn_app_2, app_nil_r.
Qed.

Lemma firstn_whole (e : nat) (u : jsstring) :
  firstn (e + List.length u - e) u = u.
Proof.
  replace (e + List.length u - e) with (List.length u) by lia.
  apply firstn_all.
Qed.

End Matcher.

(** ** The data-URL codec *)

Section Codec.

Lemma oneLine_classMatches (s : jsstring) :
  forallb (classMatches Dot) s = oneLine s.
Proof. reflexivity. Qed.

(** The second parenthesis and the end of the pattern: [(.+)$]. *)
Lemma payload_run_some z y :
  run (Seq (Group 2 (Plus Dot)) AssertEnd) z Some = Some y ->
  rest z <> [] /\ oneLine (rest z) = true /\
  captures y = (2, rest z) :: captures z.
Proof.
  cbn [run]. intros H. apply run_plus_some in H.
  destruct H as (u & v & Hne & Hrest & Hu & Hk). cbn [run rest endIndex captures] in Hk.
  destruct v as [|c v]; [|discriminate]. injection Hk as <-.
  rewrite app_nil_r in Hrest. subst u. cbn [captures].
  repeat split; auto.
  now rewrite firstn_whole.
Qed.

Lemma payload_run z :
  rest z <> [] -> oneLine (rest z) = true ->
  run (Seq (Group 2 (Plus Dot)) AssertEnd) z Some
  = Some {| endIndex := endIndex z + List.length (rest z); rest := [];
            captures := (2, rest z) :: captures z |}.
Proof.
  intros Hne Hline. cbn [run].
  apply run_plus_longest with (u := rest z) (v := []); auto.
  - now rewrite app_nil_r.
  - intros [|c w1] w2 Hv Hw1; [congruence | discriminate].
  - cbn [run rest endIndex captures]. now rewrite firstn_whole.
Qed.

Lemma dataUrlPattern_some i s y :
  run dataUrlPattern {| endIndex := i; rest := s; captures := [] |} Some
  = Some y ->
  i = 0 /\
  exists T P, T <> [] /\ P <> [] /\ oneLine T = true /\ oneLine P = true /\
    s = dataUrl T P /\ captures y = [(2, P); (1, T)].
Proof.
  unfold dataUrlPattern. cbn [run endIndex]. destruct i; [|discriminate].
  cbn [Nat.eqb]. intros H. split; [reflexivity|].
  apply run_literal_some in H. cbn [rest endIndex captures] in H.
  destruct H as (r & -> & H). cbn [run] in H.
  apply run_plus_some in H. cbn [rest endIndex captures] in H.
  destruct H as (T & v & HT & -> & HlineT & H).
  apply run_literal_some in H. cbn [rest endIndex captures] in H.
  destruct H as (P & -> & H).
  apply payload_run_some in H. cbn [rest captures] in H.
  destruct H as (HP & HlineP & Hcaps).
  exists T, P. repeat split; auto.
  now rewrite Hcaps, firstn_span.
Qed.

(** Only index 0 can start a match of the anchored pattern. *)
Lemma dataUrlPattern_anchored i s :
  execFrom dataUrlPattern (S i) s = None.
Proof.
  revert i; induction s as [|c s IH]; intros i; simpl; auto.
Qed.

Lemma stringMatch_dataUrlPattern s :
  stringMatch s dataUrlPattern
  = match run dataUrlPattern
            {| endIndex := 0; rest := s; captures := [] |} Some with
    | Some y => Some {| index := 0; matched := firstn (endIndex y - 0) s;
                        groups := captures y |}
    | None => None
    end.
Proof.
  unfold stringMatch. destruct s as [|c s]; simpl execFrom.
  - reflexivity.
  - now rewrite dataUrlPattern_anchored.
Qed.

(** No text that starts one character or more into [;base64,P] starts with
    the marker again, when [P] has no semicolon. *)
Lemma no_later_marker (h : char16) (pre X m Y P : jsstring) :
  ~ In h pre -> X ++ (h :: m) ++ Y = pre ++ P -> In h P.
Proof.
  revert X; induction pre as [|a pre IH]; intros X Hpre Heq; simpl in *.
  - subst P. apply in_or_app. right. now left.
  - destruct X as [|x X]; simpl in Heq.
    + injection Heq as -> _. tauto.
    + injection Heq as _ Heq. apply (IH X); tauto.
Qed.

Lemma marker_after_start X Y P :
  X <> [] -> X ++ marker ++ Y = marker ++ P -> In semicolon P.
Proof.
  intros HX Heq. destruct X as [|x X]; [congruence|].
  change marker with (semicolon :: str "base64,") in Heq.
  simpl in Heq. injection Heq as _ Heq.
  apply (no_later_marker semicolon (str "base64,") X (str "base64,") Y P).
  - vm_compute. intuition discriminate.
  - exact Heq.
Qed.

Lemma marker_before_end X Y T :
  Y <> [] -> X ++ marker ++ Y = T ++ marker -> In comma T.
Proof.
  intros HY Heq. apply (f_equal (@rev _)) in Heq.
  rewrite !rev_app_distr, <- app_assoc in Heq.
  destruct (rev Y) as [|y Y'] eqn:HrY.
  - apply (f_equal (@rev _)) in HrY. rewrite rev_involutive in HrY.
    now subst Y.
  - change (rev marker) with (comma :: str "46esab;") in Heq.
    simpl in Heq. injection Heq as _ Heq.
    apply in_rev.
    apply (no_later_marker comma (str "46esab;") Y' (str "46esab;")
             (rev X) (rev T)).
    + vm_compute. intuition discriminate.
    + exact Heq.
Qed.

(** The split the greedy first parenthesis settles on: the whole of [T], as
    soon as no semicolon in [P] can start the marker again. *)
Lemma dataUrlPattern_split T P :
  T <> [] -> oneLine T = true -> P <> [] -> oneLine P = true ->
  ~ In semicolon P ->
  exists y,
    run dataUrlPattern
      {| endIndex := 0; rest := dataUrl T P; captures := [] |} Some = Some y
    /\ captures y = [(2, P); (1, T)].
Proof.
  intros HT HlineT HP HlineP Hsemi. eexists. split.
  - unfold dataUrlPattern, dataUrl. cbn [run endIndex Nat.eqb].
    rewrite run_literal_app. cbn [run].
    apply run_plus_longest with (u := T) (v := marker ++ P); auto.
    + intros w1 w2 Hv Hw1. cbn [rest endIndex captures].
      match goal with |- ?r = None => destruct r eqn:E; [|reflexivity] end.
      apply run_literal_some in E. cbn [rest] in E.
      destruct E as (r & -> & _). exfalso. apply Hsemi.
      apply (marker_after_start w1 r P); auto.
    + cbn [rest endIndex captures]. rewrite run_literal_app.
      rewrite payload_run by assumption. reflexivity.
  - cbn [captures]. now rewrite firstn_span.
Qed.

Lemma parseDataUrl_split T P :
  T <> [] -> oneLine T = true -> P <> [] -> oneLine P = true ->
  ~ In semicolon P ->
  parseDataUrl (dataUrl T P)
  = Normal {| base64Data := Some P; mimeType := Some T |}.
Proof.
  intros HT HlineT HP HlineP Hsemi.
  destruct (dataUrlPattern_split T P HT HlineT HP HlineP Hsemi)
    as (y & Hrun & Hcaps).
  unfold parseDataUrl. rewrite stringMatch_dataUrlPattern, Hrun.
  unfold group. cbn [groups]. now rewrite Hcaps.
Qed.

Lemma parseDataUrl_normal s r :
  parseDataUrl s = Normal r ->
  exists T P, T <> [] /\ P <> [] /\ oneLine T = true /\ oneLine P = true /\
    s = dataUrl T P /\ mimeType r = Some T /\ base64Data r = Some P.
Proof.
  unfold parseDataUrl. rewrite stringMatch_dataUrlPattern.
  destruct (run dataUrlPattern _ Some) as [y|] eqn:Hrun; [|discriminate].
  apply dataUrlPattern_some in Hrun.
  destruct Hrun as (_ & T & P & HT & HP & HlT & HlP & Hs & Hcaps).
  unfold group. cbn [groups]. rewrite Hcaps. intros [= <-].
  exists T, P. cbn. repeat split; auto.
Qed.

(** [parseDataUrl] never throws anything but the one error. *)
Lemma parseDataUrl_throw s e :
  parseDataUrl s = Throw e -> e = invalidDataUrl.
Proof.
  unfold parseDataUrl. destruct (stringMatch s dataUrlPattern); congruence.
Qed.

Lemma parseDataUrl_rejects s :
  ~ dataUrlShape s -> parseDataUrl s = Throw invalidDataUrl.
Proof.
  intros Hshape. destruct (parseDataUrl s) as [r|e] eqn:Hp.
  - exfalso. apply Hshape. apply parseDataUrl_normal in Hp.
    destruct Hp as (T & P & HT & HP & HlT & HlP & Hs & _).
    exists T, P. auto.
  - f_equal. eapply parseDataUrl_throw; eauto.
Qed.

(** The shape is exactly what the pattern accepts. *)
Lemma parseDataUrl_accepts s :
  dataUrlShape s -> exists r, parseDataUrl s = Normal r.
Proof.
  intros (T & P & HT & HP & HlT & HlP & ->).
  unfold parseDataUrl. rewrite stringMatch_dataUrlPattern.
  assert (exists y, run dataUrlPattern
            {| endIndex := 0; rest := dataUrl T P; captures := [] |} Some
          = Some y) as [y ->]; [|eauto].
  unfold dataUrlPattern, dataUrl. cbn [run endIndex Nat.eqb].
  rewrite run_literal_app. cbn [run].
  eapply run_plus_complete with (u := T) (v := marker ++ P); eauto.
  cbn [rest endIndex captures]. rewrite run_literal_app.
  rewrite payload_run by assumption. reflexivity.
Qed.

Lemma isBase64Char_plain c :
  isBase64Char c = true ->
  negb (isLineTerminator c) = true /\ c <> semicolon /\ c <> comma.
Proof.
  unfold isBase64Char, isLineTerminator, semicolon, comma.
  rewrite !orb_true_iff, !andb_true_iff, !N.leb_le, !N.eqb_eq.
  intros H. rewrite negb_true_iff.
  repeat split; try lia.
  rewrite !orb_false_iff, !N.eqb_neq. lia.
Qed.

Lemma base64_text P :
  forallb isBase64Char P = true -> oneLine P = true /\ ~ In semicolon P.
Proof.
  intros H. rewrite forallb_forall in H. split.
  - apply forallb_forall. intros c Hc. now apply isBase64Char_plain, H.
  - intros Hin. apply H, isBase64Char_plain in Hin. tauto.
Qed.

(** C1. For every text [data:T;base64,P] with [T] a media type and [P] a
    base64 payload, [parseDataUrl] returns the pair of [T] and [P] as they
    stand; for every text that has not the shape
    [data:<media-type>;base64,<payload>], it throws the error
    'Invalid data URL format'. *)
Theorem parseDataUrl_exact_form :
  (forall T P,
     isMediaType T = true -> isBase64Payload P = true ->
     parseDataUrl (dataUrl T P)
     = Normal {| base64Data := Some P; mimeType := Some T |})
  /\
  (forall s,
     ~ dataUrlShape s ->
     parseDataUrl s = Throw (ErrorObject (str "Invalid data URL format"))).
Proof.
  split.
  - intros T P HT HP.
    destruct T as [|t T]; [discriminate|].
    destruct P as [|p P]; [discriminate|].
    unfold isMediaType in HT. unfold isBase64Payload in HP.
    apply base64_text in HP as [HlP Hsemi].
    apply parseDataUrl_split; auto; discriminate.
  - exact parseDataUrl_rejects.
Qed.

(** C8. [parseDataUrl] throws 'Invalid data URL format' on every text whose
    media-type part or base64 payload part is empty: on [data:;base64,P]
    for every [P] without a semicolon, as every base64 payload is, and on
    [data:T;base64,] for every [T] without a comma, as a media type is;
    and whenever it returns, neither of the two captures is empty. *)
Theorem parseDataUrl_empty_part :
  (forall P,
     ~ In semicolon P ->
     parseDataUrl (dataUrl [] P)
     = Throw (ErrorObject (str "Invalid data URL format")))
  /\
  (forall T,
     ~ In comma T ->
     parseDataUrl (dataUrl T [])
     = Throw (ErrorObject (str "Invalid data URL format")))
  /\
  (forall s r,
     parseDataUrl s = Normal r ->
     exists T P, T <> [] /\ P <> [] /\
       mimeType r = Some T /\ base64Data r = Some P).
Proof.
  split; [|split].
  - intros P Hsemi. apply parseDataUrl_rejects.
    intros (T' & P' & HT' & _ & _ & _ & Heq).
    unfold dataUrl in Heq. apply app_inv_head in Heq. simpl in Heq.
    apply Hsemi. apply (marker_after_start T' P' P); auto.
  - intros T Hcomma. apply parseDataUrl_rejects.
    intros (T' & P' & _ & HP' & _ & _ & Heq).
    unfold dataUrl in Heq. apply app_inv_head in Heq.
    rewrite app_nil_r in Heq.
    apply Hcomma. apply (marker_before_end T' P' T); auto.
  - intros s r Hp. apply parseDataUrl_normal in Hp.
    destruct Hp as (T & P & HT & HP & _ & _ & _ & Hm & Hb). eauto 8.
Qed.

End Codec.

(** ** The background-removal request *)

(** Lay the service call open down to the remote call and the tests on its
    response. *)
Ltac open_service :=
  unfold removeImageBackground, remoteCallSection, callGenerateContent,
    rethrowApiError, bind, tryCatch, lift, ret, throw.

(** Go through what the remote call and the response can be. *)
Ltac service_cases generateContent :=
  match goal with
  | |- context [generateContent ?sent ?req] =>
      destruct (generateContent sent req) as [response|[m|v]]; simpl; auto;
      destruct (candidates response) as [[|first others]|]; simpl; auto;
      destruct (content first) as [body|]; simpl; auto;
      destruct (parts body) as [array|]; simpl; auto;
      destruct (firstInlineData array); simpl; auto;
      destruct (isNotStop (finishReason first)); simpl; auto
  end.

Section Request.

Variable generateContent :
  list Request -> Request -> Completion GenerateContentResponse.
Variable typeErrorMessage : BadRead -> jsstring.

Lemma strictEquals_eq a b : strictEquals a b = true <-> a = b.
Proof.
  revert b; induction a as [|c a IH]; intros [|d b]; simpl;
    try (split; [discriminate|congruence]); [tauto|].
  rewrite andb_true_iff, N.eqb_eq, IH. split.
  - now intros [-> ->].
  - now intros [= -> ->].
Qed.

Lemma isNotStop_true reason :
  reason <> Some (str "STOP") -> isNotStop reason = true.
Proof.
  destruct reason as [s|]; simpl; [|reflexivity].
  intros H. apply negb_true_iff.
  destruct (strictEquals s (str "STOP")) eqn:E; [|reflexivity].
  apply strictEquals_eq in E. congruence.
Qed.

Lemma firstInlineData_none parts :
  Forall (fun part => inlineData part = None) parts ->
  firstInlineData parts = None.
Proof.
  induction 1 as [|part parts Hpart _ IH]; simpl; [reflexivity|].
  now rewrite Hpart.
Qed.

Lemma firstInlineData_first before part blob after :
  Forall (fun p => inlineData p = None) before ->
  inlineData part = Some blob ->
  firstInlineData (before ++ part :: after) = Some (data blob).
Proof.
  induction 1 as [|p before Hp _ IH]; simpl; intros Hpart.
  - now rewrite Hpart.
  - rewrite Hp. auto.
Qed.

(** The call as a whole, once the data URL is parsed and the remote call
    has settled with a response whose first candidate has content parts. *)
Lemma removeImageBackground_settled
    dataUrl parsed response first others body array w :
  parseDataUrl dataUrl = Normal parsed ->
  let req := requestOf (InlinePart (base64Data parsed) (mimeType parsed))
               (TextPart PROMPT) in
  generateContent (network w) req = Normal response ->
  candidates response = Some (first :: others) ->
  content first = Some body ->
  parts body = Some array ->
  removeImageBackground generateContent typeErrorMessage dataUrl w =
  (match firstInlineData array with
   | Some found => Normal found
   | None =>
       if isNotStop (finishReason first)
       then Throw (ErrorObject
                     (apiErrorPrefix ++ stoppedMessage (finishReason first)))
       else Throw (ErrorObject (apiErrorPrefix ++ noImageMessage))
   end,
   recordRequest req w).
Proof.
  intros Hparse req Hcall Hcand Hbody Harray. open_service.
  rewrite Hparse. fold req. rewrite Hcall, Hcand, Hbody, Harray.
  destruct (firstInlineData array); [reflexivity|].
  now destruct (isNotStop (finishReason first)).
Qed.

(** The call once the remote call has settled with a response in which
    line 46 meets [undefined]: the TypeError comes back after 'API Error: ',
    and the finish reason is not looked at. *)
Lemma removeImageBackground_bad_read dataUrl parsed response w :
  parseDataUrl dataUrl = Normal parsed ->
  generateContent (network w)
    (requestOf (InlinePart (base64Data parsed) (mimeType parsed))
       (TextPart PROMPT)) = Normal response ->
  forall read,
    match candidates response with
    | None => read = FirstOfUndefined
    | Some [] => read = ContentOfUndefined
    | Some (first :: _) =>
        match content first with
        | None => read = PartsOfUndefined
        | Some body => parts body = None /\ read = NotIterable
        end
    end ->
    fst (removeImageBackground generateContent typeErrorMessage dataUrl w)
    = Throw (ErrorObject (apiErrorPrefix ++ typeErrorMessage read)).
Proof.
  intros Hparse Hcall read Hread. open_service.
  rewrite Hparse. cbn [fst snd]. rewrite Hcall.
  destruct (candidates response) as [[|first others]|]; cbn [fst snd].
  - now subst read.
  - destruct (content first) as [body|]; cbn [fst snd].
    + destruct Hread as [Hnone ->]. now rewrite Hnone.
    + now subst read.
  - now subst read.
Qed.

(** X16. When the first candidate of the response has content parts, none
    of them with inline data, and a finish reason other than 'STOP', the
    call fails with the content-policy error, and the reason stands in the
    message letter for letter; where the candidate has no finish reason,
    the word 'undefined' stands in its place. *)
Theorem removeImageBackground_content_policy_with_parts
    dataUrl parsed response first others body array w :
  parseDataUrl dataUrl = Normal parsed ->
  generateContent (network w)
    (requestOf (InlinePart (base64Data parsed) (mimeType parsed))
       (TextPart PROMPT)) = Normal response ->
  candidates response = Some (first :: others) ->
  content first = Some body ->
  parts body = Some array ->
  Forall (fun part => inlineData part = None) array ->
  (forall reason,
     finishReason first = Some reason -> reason <> str "STOP" ->
     fst (removeImageBackground generateContent typeErrorMessage dataUrl w)
     = Throw (ErrorObject
                (str "API Error: Processing was stopped due to: "
                 ++ reason ++ str ". Please try a different image.")))
  /\
  (finishReason first = None ->
   fst (removeImageBackground generateContent typeErrorMessage dataUrl w)
   = Throw (ErrorObject
       (str "API Error: Processing was stopped due to: undefined. Please try a different image."))).
Proof.
  intros Hparse Hcall Hcand Hbody Harray Hparts.
  rewrite (removeImageBackground_settled _ _ _ _ _ _ _ _
             Hparse Hcall Hcand Hbody Harray).
  rewrite (firstInlineData_none _ Hparts). split.
  - intros reason Hreason Hstop. rewrite Hreason.
    rewrite isNotStop_true by congruence. reflexivity.
  - intros ->. reflexivity.
Qed.

(** X17. When the first candidate of the response has content parts, none
    of them with inline data, and the finish reason 'STOP', the call fails
    with the no-output error, which is no content-policy error whatever
    the reason. *)
Theorem removeImageBackground_no_output_with_parts
    dataUrl parsed response first others body array w :
  parseDataUrl dataUrl = Normal parsed ->
  generateContent (network w)
    (requestOf (InlinePart (base64Data parsed) (mimeType parsed))
       (TextPart PROMPT)) = Normal response ->
  candidates response = Some (first :: others) ->
  content first = Some body ->
  parts body = Some array ->
  Forall (fun part => inlineData part = None) array ->
  finishReason first = Some (str "STOP") ->
  fst (removeImageBackground generateContent typeErrorMessage dataUrl w)
  = Throw (ErrorObject
             (str "API Error: No image data found in the API response."))
  /\
  forall reason,
    fst (removeImageBackground generateContent typeErrorMessage dataUrl w)
    <> Throw (ErrorObject
                (str "API Error: Processing was stopped due to: "
                 ++ reason ++ str ". Please try a different image.")).
Proof.
  intros Hparse Hcall Hcand Hbody Harray Hparts Hreason.
  rewrite (removeImageBackground_settled _ _ _ _ _ _ _ _
             Hparse Hcall Hcand Hbody Harray).
  rewrite (firstInlineData_none _ Hparts), Hreason. simpl fst.
  split; [reflexivity|].
  intros reason H. vm_compute in H. discriminate.
Qed.

(** C4. When the content parts of the first candidate hold a part with an
    inline payload, the call returns the data of the first such part in the
    order of the parts. *)
Theorem removeImageBackground_first_inline
    dataUrl parsed response first others body before part blob after w :
  parseDataUrl dataUrl = Normal parsed ->
  generateContent (network w)
    (requestOf (InlinePart (base64Data parsed) (mimeType parsed))
       (TextPart PROMPT)) = Normal response ->
  candidates response = Some (first :: others) ->
  content first = Some body ->
  parts body = Some (before ++ part :: after) ->
  Forall (fun p => inlineData p = None) before ->
  inlineData part = Some blob ->
  fst (removeImageBackground generateContent typeErrorMessage dataUrl w)
  = Normal (data blob).
Proof.
  intros Hparse Hcall Hcand Hbody Harray Hbefore Hpart.
  rewrite (removeImageBackground_settled _ _ _ _ _ _ _ _
             Hparse Hcall Hcand Hbody Harray).
  now rewrite (firstInlineData_first _ _ _ _ Hbefore Hpart).
Qed.

(** C10, as the code has it.  A failure raised in the remote-call section
    with an [Error] is thrown again with 'API Error: ' before its message,
    and the failures for a response without inline payload are of that
    kind; a failure with any other value becomes the fixed error 'An
    unknown error occurred while communicating with the API.'; a malformed
    data URL throws 'Invalid data URL format', which has no such prefix,
    before any request is sent. *)
Theorem removeImageBackground_rethrow dataUrl w :
  (forall parsed e w',
     parseDataUrl dataUrl = Normal parsed ->
     remoteCallSection generateContent typeErrorMessage
       (InlinePart (base64Data parsed) (mimeType parsed)) (TextPart PROMPT) w
     = (Throw e, w') ->
     removeImageBackground generateContent typeErrorMessage dataUrl w
     = (match e with
        | ErrorObject message =>
            Throw (ErrorObject (str "API Error: " ++ message))
        | OtherValue _ =>
            Throw (ErrorObject
              (str "An unknown error occurred while communicating with the API."))
        end, w'))
  /\
  (forall imagePart textPart response first others body array,
     generateContent (network w) (requestOf imagePart textPart)
     = Normal response ->
     candidates response = Some (first :: others) ->
     content first = Some body ->
     parts body = Some array ->
     Forall (fun part => inlineData part = None) array ->
     exists message,
       fst (remoteCallSection generateContent typeErrorMessage
              imagePart textPart w) = Throw (ErrorObject message))
  /\
  (forall e,
     parseDataUrl dataUrl = Throw e ->
     removeImageBackground generateContent typeErrorMessage dataUrl w
     = (Throw (ErrorObject (str "Invalid data URL format")), w)
     /\ startsWith (str "Invalid data URL format") (str "API Error: ")
        = false).
Proof.
  split; [|split].
  - intros parsed e w' Hparse Hbody.
    unfold removeImageBackground, bind, tryCatch, lift.
    rewrite Hparse, Hbody. now destruct e.
  - intros imagePart textPart response first others body array
      Hcall Hcand Hbody Harray Hparts.
    unfold remoteCallSection, callGenerateContent, bind, ret, throw.
    rewrite Hcall, Hcand, Hbody, Harray, (firstInlineData_none _ Hparts).
    destruct (isNotStop (finishReason first)); simpl; eauto.
  - intros e Hparse. split; [|reflexivity].
    unfold removeImageBackground, bind, lift. rewrite Hparse.
    now rewrite (parseDataUrl_throw _ _ Hparse).
Qed.

End Request.

(** ** The presentation shell *)

Section Presentation.

Variable generateContent :
  list Request -> Request -> Completion GenerateContentResponse.
Variable typeErrorMessage : BadRead -> jsstring.
Variable fileToDataUrl : File -> Completion jsstring.

(** The service touches nothing of the world but the wire. *)
Lemma removeImageBackground_frame dataUrl w :
  let w' := snd (removeImageBackground generateContent typeErrorMessage
                   dataUrl w) in
  ui w' = ui w /\ painted w' = painted w /\ fileInput w' = fileInput w.
Proof.
  open_service.
  destruct (parseDataUrl dataUrl) as [parsed|e]; simpl; auto.
  service_cases generateContent.
Qed.

(** Its outcome depends on the world only through the requests sent. *)
Lemma removeImageBackground_network dataUrl w1 w2 :
  network w1 = network w2 ->
  fst (removeImageBackground generateContent typeErrorMessage dataUrl w1)
  = fst (removeImageBackground generateContent typeErrorMessage dataUrl w2).
Proof.
  intros Hnet.
  open_service.
  destruct (parseDataUrl dataUrl) as [parsed|e]; simpl; auto.
  rewrite Hnet. service_cases generateContent.
Qed.

(** The two states painted while an attempt is under way. *)
Lemma processFile_world file w :
  let started :=
    {| originalImage := originalImage (ui w); processedImage := None;
       appState := processing; errorMessage := [] |} in
  let failed err :=
    {| originalImage := None; processedImage := None; appState := error;
       errorMessage :=
         str "Failed to process image. "
         ++ match err with
            | ErrorObject m => m
            | OtherValue _ => str "An unknown error occurred."
            end |} in
  let w' := snd (processFile generateContent typeErrorMessage fileToDataUrl
                   file w) in
  if startsWith (type file) (str "image/") then
    match fileToDataUrl file with
    | Throw err =>
        ui w' = failed err /\ painted w' = started :: painted w
        /\ network w' = network w
    | Normal dataUrl =>
        let loaded :=
          {| originalImage := Some dataUrl; processedImage := None;
             appState := processing; errorMessage := [] |} in
        painted w' = loaded :: started :: painted w /\
        match fst (removeImageBackground generateContent typeErrorMessage
                     dataUrl w) with
        | Normal resultBase64 =>
            ui w' =
            {| originalImage := Some dataUrl;
               processedImage := Some (pngPrefix ++ resultBase64);
               appState := success; errorMessage := [] |}
        | Throw err => ui w' = failed err
        end
    end
  else
    w' = {| ui := {| originalImage := originalImage (ui w);
                     processedImage := processedImage (ui w);
                     appState := error;
                     errorMessage := invalidFileMessage |};
            painted := painted w; network := network w;
            fileInput := fileInput w |}.
Proof.
  unfold processFile.
  destruct (startsWith (type file) (str "image/")); simpl negb; cbv iota;
    [|reflexivity].
  unfold bind, tryCatch, await, lift, setAppState, setProcessedImage,
    setErrorMessage, setOriginalImage, modifyUi, commit. simpl.
  destruct (fileToDataUrl file) as [dataUrl|err]; simpl; [|auto].
  match goal with
  | |- context [removeImageBackground _ _ _ ?w2] =>
      pose proof (removeImageBackground_frame dataUrl w2) as Hframe;
      pose proof (removeImageBackground_network dataUrl w2 w eq_refl) as Hnet;
      destruct (removeImageBackground generateContent typeErrorMessage
                  dataUrl w2) as [[r|err] w3]
  end; simpl in *; rewrite <- Hnet; destruct Hframe as (Hui & Hp & Hf);
    simpl; rewrite ?Hui, ?Hp; simpl; auto.
Qed.

(** The failures that reach the [catch] block clear the original image. *)
Lemma processFile_caught_clears_original file w :
  startsWith (type file) (str "image/") = true ->
  let w' := snd (processFile generateContent typeErrorMessage fileToDataUrl
                   file w) in
  appState (ui w') <> success ->
  appState (ui w') = error /\ originalImage (ui w') = None.
Proof.
  intros Himg. pose proof (processFile_world file w) as H.
  cbv zeta in *. rewrite Himg in H.
  destruct (fileToDataUrl file) as [dataUrl|err].
  - destruct H as [_ H].
    destruct (fst (removeImageBackground _ _ dataUrl w)); rewrite H; simpl;
      intuition congruence.
  - destruct H as (H & _). rewrite H. simpl. auto.
Qed.

(** C5, as the code has it.  A file whose declared type does not start
    with 'image/' puts the UI in the [error] state with the fixed message
    and sends nothing, when it is selected, and when it is dropped while no
    request is in flight; a drop in the [processing] state is ignored. *)
Theorem non_image_file_rejected file w :
  startsWith (type file) (str "image/") = false ->
  let rejected :=
    {| ui := {| originalImage := originalImage (ui w);
                processedImage := processedImage (ui w);
                appState := error;
                errorMessage := str "Please upload a valid image file." |};
       painted := painted w; network := network w;
       fileInput := fileInput w |} in
  snd (handleFileChange generateContent typeErrorMessage fileToDataUrl
         (Some file) w) = rejected
  /\ (appState (ui w) <> processing ->
      snd (handleDrop generateContent typeErrorMessage fileToDataUrl
             (Some file) w) = rejected)
  /\ (appState (ui w) = processing ->
      snd (handleDrop generateContent typeErrorMessage fileToDataUrl
             (Some file) w) = w).
Proof.
  intros Himg rejected. pose proof (processFile_world file w) as H.
  cbv zeta in H. rewrite Himg in H. unfold handleFileChange, handleDrop.
  repeat split.
  - exact H.
  - intros Hstate. destruct (appState (ui w)); try exact H. congruence.
  - intros ->. reflexivity.
Qed.

Lemma handleReset_world w :
  fst (handleReset w) = Normal tt
  /\ ui (snd (handleReset w)) = initialUi
  /\ network (snd (handleReset w)) = network w
  /\ painted (snd (handleReset w)) = painted w.
Proof.
  unfold handleReset, bind, setOriginalImage, setProcessedImage,
    setAppState, setErrorMessage, modifyUi. simpl.
  now destruct (fileInput w).
Qed.

(** After any sequence of events the current state is the one painted
    last. *)
Lemma runEvents_ui_painted evs :
  let w := runEvents generateContent typeErrorMessage fileToDataUrl evs in
  In (ui w) (painted w).
Proof.
  unfold runEvents. induction evs as [|ev evs _] using rev_ind.
  - simpl. auto.
  - rewrite fold_left_app. simpl. auto.
Qed.

(** C7. A reset leads from any state, so from [success] and from [error],
    to [idle] with both images null and the error text empty; it sends
    nothing and empties the file input. *)
Theorem handleReset_idle w :
  fst (handleReset w) = Normal tt
  /\ ui (snd (handleReset w))
     = {| originalImage := None; processedImage := None;
          appState := idle; errorMessage := [] |}
  /\ network (snd (handleReset w)) = network w.
Proof.
  destruct (handleReset_world w) as (H1 & H2 & H3 & _). auto.
Qed.

Lemma dispatch_painted w ev s :
  In s (painted (dispatch generateContent typeErrorMessage fileToDataUrl
                   w ev)) ->
  In s (painted w)
  \/ s = ui (snd (handle generateContent typeErrorMessage fileToDataUrl
                    ev w))
  \/ appState s = processing.
Proof.
  unfold dispatch, commit. cbn [painted]. intros [<-|Hin]; [auto|].
  assert (Hfile : forall file,
    In s (painted (snd (processFile generateContent typeErrorMessage
                          fileToDataUrl file w))) ->
    In s (painted w) \/ appState s = processing).
  { intros file. pose proof (processFile_world file w) as H.
    cbv zeta in H.
    destruct (startsWith (type file) (str "image/")).
    - destruct (fileToDataUrl file) as [dataUrl|err].
      + destruct H as [-> _]. intros [<-|[<-|?]]; auto.
      + destruct H as (_ & -> & _). intros [<-|?]; auto.
    - rewrite H. auto. }
  destruct ev as [[file|]|[file|]|]; cbn [handle] in *.
  - apply Hfile in Hin. tauto.
  - auto.
  - unfold handleDrop in *. destruct (appState (ui w)); auto;
      apply Hfile in Hin; tauto.
  - unfold handleDrop in *. destruct (appState (ui w)); auto.
  - left. destruct (handleReset_world w) as (_ & _ & _ & Hp).
    now rewrite Hp in Hin.
Qed.

(** C9. When an attempt ends in [success], the processed image is the
    text 'data:image/png;base64,' followed by what the service returned
    for the data URL of the file, whatever the file's own type; and in
    every state painted in the course of any sequence of events, a
    [success] state shows a processed image of that form.  (What the
    service returns depends on the world only through the requests sent
    before, which an attempt leaves as they are up to its call.) *)
Theorem success_shows_png :
  (forall file w,
     let w' := snd (processFile generateContent typeErrorMessage
                      fileToDataUrl file w) in
     appState (ui w') = success ->
     exists dataUrl resultBase64,
       fileToDataUrl file = Normal dataUrl /\
       fst (removeImageBackground generateContent typeErrorMessage
              dataUrl w) = Normal resultBase64 /\
       processedImage (ui w')
       = Some (str "data:image/png;base64," ++ resultBase64))
  /\
  (forall evs s,
     In s (painted (runEvents generateContent typeErrorMessage
                      fileToDataUrl evs)) ->
     appState s = success ->
     exists resultBase64,
       processedImage s = Some (str "data:image/png;base64," ++ resultBase64)).
Proof.
  assert (Hone : forall file w,
     let w' := snd (processFile generateContent typeErrorMessage
                      fileToDataUrl file w) in
     appState (ui w') = success ->
     exists dataUrl resultBase64,
       fileToDataUrl file = Normal dataUrl /\
       fst (removeImageBackground generateContent typeErrorMessage
              dataUrl w) = Normal resultBase64 /\
       processedImage (ui w')
       = Some (str "data:image/png;base64," ++ resultBase64)).
  { intros file w. pose proof (processFile_world file w) as H.
    cbv zeta in *.
    destruct (startsWith (type file) (str "image/")).
    - destruct (fileToDataUrl file) as [dataUrl|err].
      + destruct H as [_ H].
        destruct (fst (removeImageBackground _ _ dataUrl w)) as [r|err] eqn:E;
          rewrite H; simpl; [|discriminate].
        intros _. exists dataUrl, r. auto.
      + destruct H as (-> & _). discriminate.
    - rewrite H. discriminate. }
  split; [exact Hone|].
  unfold runEvents. intros evs.
  induction evs as [|ev evs IH] using rev_ind; intros s Hin Hs.
  - simpl in Hin. destruct Hin as [<-|[]]. discriminate.
  - rewrite fold_left_app in Hin. cbn [fold_left] in Hin.
    apply dispatch_painted in Hin. destruct Hin as [Hin|[->|Hp]].
    + eauto.
    + pose proof (runEvents_ui_painted evs) as Hcur.
      unfold runEvents in Hcur. cbv zeta in Hcur.
      set (w := fold_left _ evs initialWorld) in *.
      destruct ev as [[file|]|[file|]|]; cbn [handle] in *.
      * destruct (Hone file w Hs) as (d & r & _ & _ & Hr). eauto.
      * eauto.
      * unfold handleDrop in *. destruct (appState (ui w)) eqn:Hw;
          try (destruct (Hone file w Hs) as (d & r & _ & _ & Hr); eauto).
        eauto.
      * unfold handleDrop in *. destruct (appState (ui w)); eauto.
      * destruct (handleReset_world w) as (_ & Hui & _).
        rewrite Hui in Hs. discriminate.
    + congruence.
Qed.

End Presentation.

(** ** Concrete runs *)

Section Runs.

Lemma parseDataUrl_exact_form_witness :
  parseDataUrl (dataUrl (str "image/png") (str "iVBORw0KGgo="))
  = Normal {| base64Data := Some (str "iVBORw0KGgo=");
              mimeType := Some (str "image/png") |}
  /\ parseDataUrl (str "photo.png")
     = Throw (ErrorObject (str "Invalid data URL format")).
Proof.
  split.
  - apply (proj1 parseDataUrl_exact_form); reflexivity.
  - apply (proj2 parseDataUrl_exact_form).
    intros (T & P & _ & _ & _ & _ & H). cbv in H. discriminate H.
Defined.

Lemma parseDataUrl_empty_part_witness :
  parseDataUrl (dataUrl [] (str "iVBORw0KGgo="))
  = Throw (ErrorObject (str "Invalid data URL format"))
  /\ parseDataUrl (dataUrl (str "image/png") [])
     = Throw (ErrorObject (str "Invalid data URL format"))
  /\ exists T P, T <> [] /\ P <> [] /\
       mimeType pngParsed = Some T /\ base64Data pngParsed = Some P.
Proof.
  split; [|split].
  - apply (proj1 parseDataUrl_empty_part).
    intros H. cbv in H. intuition discriminate.
  - apply (proj1 (proj2 parseDataUrl_empty_part)).
    intros H. cbv in H. intuition discriminate.
  - apply (proj2 (proj2 parseDataUrl_empty_part) pngDataUrl). reflexivity.
Defined.

(** An accepted text whose parts are not what they seem: the greedy first
    parenthesis runs up to the last marker. *)
Lemma parseDataUrl_last_marker :
  parseDataUrl (str "data:a;base64,b;base64,c")
  = Normal {| base64Data := Some (str "c");
              mimeType := Some (str "a;base64,b") |}
  /\ parseDataUrl (str "data:;base64,b;base64,c")
     = Normal {| base64Data := Some (str "c");
                 mimeType := Some (str ";base64,b") |}.
Proof. split; reflexivity. Qed.

(** C2 at the failing input: the answer is blocked for safety and its
    candidate has a finish reason and no content.  The bare read of line 46
    throws a TypeError, which comes back after 'API Error: '; the message
    does not name the finish reason. *)
Lemma blocked_answer_without_content :
  fst (removeImageBackground
         (withoutContent (Some (str "SAFETY"))) typeError pngDataUrl
         initialWorld)
  = Throw (ErrorObject
      (str "API Error: Cannot read properties of undefined (reading 'parts')"))
  /\
  fst (removeImageBackground
         (withoutContent (Some (str "SAFETY"))) typeError pngDataUrl
         initialWorld)
  <> Throw (ErrorObject
       (str "API Error: Processing was stopped due to: SAFETY. Please try a different image.")).
Proof. split; [reflexivity|]. intros H. vm_compute in H. discriminate. Qed.

(** C3 at the failing input: the answer ends with 'STOP' and its candidate
    has no content.  The same bare read throws a TypeError, and the
    no-output error is not reached. *)
Lemma stop_answer_without_content :
  fst (removeImageBackground
         (withoutContent (Some (str "STOP"))) typeError pngDataUrl
         initialWorld)
  = Throw (ErrorObject
      (str "API Error: Cannot read properties of undefined (reading 'parts')"))
  /\
  fst (removeImageBackground
         (withoutContent (Some (str "STOP"))) typeError pngDataUrl
         initialWorld)
  <> Throw (ErrorObject
       (str "API Error: No image data found in the API response.")).
Proof. split; [reflexivity|]. intros H. vm_compute in H. discriminate. Qed.

Lemma removeImageBackground_content_policy_with_parts_witness :
  fst (removeImageBackground
         (respond [textOnly (str "I cannot help with that.")]
            (Some (str "SAFETY")))
         typeError pngDataUrl initialWorld)
  = Throw (ErrorObject
      (str "API Error: Processing was stopped due to: SAFETY. Please try a different image."))
  /\
  fst (removeImageBackground
         (respond [textOnly (str "I cannot help with that.")] None)
         typeError pngDataUrl initialWorld)
  = Throw (ErrorObject
      (str "API Error: Processing was stopped due to: undefined. Please try a different image.")).
Proof.
  split.
  - apply (proj1 (removeImageBackground_content_policy_with_parts
             (respond [textOnly (str "I cannot help with that.")]
                (Some (str "SAFETY")))
             typeError pngDataUrl pngParsed
             {| candidates :=
                  Some [candidateWith
                          [textOnly (str "I cannot help with that.")]
                          (Some (str "SAFETY"))] |}
             (candidateWith [textOnly (str "I cannot help with that.")]
                (Some (str "SAFETY")))
             []
             {| parts := Some [textOnly (str "I cannot help with that.")] |}
             [textOnly (str "I cannot help with that.")]
             initialWorld eq_refl eq_refl eq_refl eq_refl eq_refl
             ltac:(repeat constructor))
           (str "SAFETY")).
    + reflexivity.
    + intros H. cbv in H. discriminate H.
  - apply (proj2 (removeImageBackground_content_policy_with_parts
             (respond [textOnly (str "I cannot help with that.")] None)
             typeError pngDataUrl pngParsed
             {| candidates :=
                  Some [candidateWith
                          [textOnly (str "I cannot help with that.")]
                          None] |}
             (candidateWith [textOnly (str "I cannot help with that.")] None)
             []
             {| parts := Some [textOnly (str "I cannot help with that.")] |}
             [textOnly (str "I cannot help with that.")]
             initialWorld eq_refl eq_refl eq_refl eq_refl eq_refl
             ltac:(repeat constructor))).
    reflexivity.
Defined.

Lemma removeImageBackground_no_output_with_parts_witness :
  fst (removeImageBackground
         (respond [textOnly (str "Done.")] (Some (str "STOP")))
         typeError pngDataUrl initialWorld)
  = Throw (ErrorObject
             (str "API Error: No image data found in the API response.")).
Proof.
  apply (removeImageBackground_no_output_with_parts
           (respond [textOnly (str "Done.")] (Some (str "STOP")))
           typeError pngDataUrl pngParsed
           {| candidates :=
                Some [candidateWith [textOnly (str "Done.")]
                        (Some (str "STOP"))] |}
           (candidateWith [textOnly (str "Done.")] (Some (str "STOP")))
           [] {| parts := Some [textOnly (str "Done.")] |}
           [textOnly (str "Done.")] initialWorld).
  - reflexivity.
  - reflexivity.
  - reflexivity.
  - reflexivity.
  - reflexivity.
  - repeat constructor.
  - reflexivity.
Defined.

Lemma removeImageBackground_first_inline_witness :
  fst (removeImageBackground
         (respond [textOnly (str "Here it is."); inline (str "UE5H");
                   inline (str "SlBH")] (Some (str "STOP")))
         typeError pngDataUrl initialWorld)
  = Normal (str "UE5H").
Proof.
  apply (removeImageBackground_first_inline
           (respond [textOnly (str "Here it is."); inline (str "UE5H");
                     inline (str "SlBH")] (Some (str "STOP")))
           typeError pngDataUrl pngParsed
           {| candidates :=
                Some [candidateWith
                        [textOnly (str "Here it is.");
                         inline (str "UE5H"); inline (str "SlBH")]
                        (Some (str "STOP"))] |}
           (candidateWith
              [textOnly (str "Here it is.");
               inline (str "UE5H"); inline (str "SlBH")]
              (Some (str "STOP")))
           []
           {| parts := Some [textOnly (str "Here it is.");
                             inline (str "UE5H"); inline (str "SlBH")] |}
           [textOnly (str "Here it is.")] (inline (str "UE5H"))
           {| data := str "UE5H" |} [inline (str "SlBH")] initialWorld).
  - reflexivity.
  - reflexivity.
  - reflexivity.
  - reflexivity.
  - reflexivity.
  - repeat constructor.
  - reflexivity.
Defined.

(** C10, as stated, fails: a remote call rejected with a value that is no
    [Error] ends in an error whose message has no 'API Error: ' before
    it. *)
Lemma rejection_with_other_value_has_no_prefix :
  fst (remoteCallSection (reject (OtherValue (str "offline"))) typeError
         (InlinePart (base64Data pngParsed) (mimeType pngParsed))
         (TextPart PROMPT) initialWorld)
  = Throw (OtherValue (str "offline"))
  /\ fst (removeImageBackground (reject (OtherValue (str "offline")))
            typeError pngDataUrl initialWorld)
     = Throw (ErrorObject
         (str "An unknown error occurred while communicating with the API."))
  /\ startsWith
       (str "An unknown error occurred while communicating with the API.")
       (str "API Error: ") = false.
Proof. repeat split. Qed.

Lemma removeImageBackground_rethrow_witness :
  removeImageBackground (reject (ErrorObject (str "503 Service Unavailable")))
    typeError pngDataUrl initialWorld
  = (Throw (ErrorObject (str "API Error: 503 Service Unavailable")),
     recordRequest
       (requestOf (InlinePart (base64Data pngParsed) (mimeType pngParsed))
          (TextPart PROMPT)) initialWorld)
  /\ (exists message,
        fst (remoteCallSection (respond [] (Some (str "SAFETY"))) typeError
               (InlinePart (base64Data pngParsed) (mimeType pngParsed))
               (TextPart PROMPT) initialWorld)
        = Throw (ErrorObject message))
  /\ removeImageBackground (respond [] None) typeError (str "photo.png")
       initialWorld
     = (Throw (ErrorObject (str "Invalid data URL format")), initialWorld).
Proof.
  split; [|split].
  - apply (proj1 (removeImageBackground_rethrow
                    (reject (ErrorObject (str "503 Service Unavailable")))
                    typeError pngDataUrl initialWorld)
             pngParsed (ErrorObject (str "503 Service Unavailable")));
      reflexivity.
  - apply (proj1 (proj2 (removeImageBackground_rethrow
                           (respond [] (Some (str "SAFETY")))
                           typeError pngDataUrl initialWorld))
             _ _
             {| candidates :=
                  Some [candidateWith [] (Some (str "SAFETY"))] |}
             (candidateWith [] (Some (str "SAFETY"))) []
             {| parts := Some [] |} []).
    + reflexivity.
    + reflexivity.
    + reflexivity.
    + reflexivity.
    + constructor.
  - apply (proj2 (proj2 (removeImageBackground_rethrow
                           (respond [] None) typeError (str "photo.png")
                           initialWorld))
             invalidDataUrl).
    reflexivity.
Defined.

(** C5, as stated, fails: a file that is no image, dropped while a request
    is in flight, leaves the UI in the [processing] state. *)
Lemma drop_while_processing_is_ignored :
  startsWith (type textFile) (str "image/") = false
  /\ appState (ui inFlight) = processing
  /\ snd (handleDrop (respond [] None) typeError readAsDataUrl
            (Some textFile) inFlight) = inFlight
  /\ appState (ui (snd (handleDrop (respond [] None) typeError readAsDataUrl
                          (Some textFile) inFlight))) <> error.
Proof. repeat split. discriminate. Qed.

Lemma non_image_file_rejected_witness :
  (snd (handleFileChange (respond [] None) typeError readAsDataUrl
          (Some textFile) initialWorld)
   = {| ui := {| originalImage := None; processedImage := None;
                 appState := error;
                 errorMessage := str "Please upload a valid image file." |};
        painted := [initialUi]; network := []; fileInput := Some [] |}
   /\ snd (handleDrop (respond [] None) typeError readAsDataUrl
             (Some textFile) initialWorld)
      = {| ui := {| originalImage := None; processedImage := None;
                    appState := error;
                    errorMessage := str "Please upload a valid image file." |};
           painted := [initialUi]; network := []; fileInput := Some [] |})
  /\ snd (handleDrop (respond [] None) typeError readAsDataUrl
            (Some textFile) inFlight) = inFlight.
Proof.
  split; [split|].
  - exact (proj1 (non_image_file_rejected (respond [] None) typeError
                    readAsDataUrl textFile initialWorld eq_refl)).
  - apply (proj1 (proj2 (non_image_file_rejected (respond [] None) typeError
                           readAsDataUrl textFile initialWorld eq_refl))).
    discriminate.
  - apply (proj2 (proj2 (non_image_file_rejected (respond [] None) typeError
                           readAsDataUrl textFile inFlight eq_refl))).
    reflexivity.
Defined.

(** C6 at the failing input: an image is processed with success, then a
    file that is no image is dropped on the pane.  The UI is in the [error]
    state with the first image still in place. *)
Lemma rejection_after_success_keeps_original :
  ui (runEvents (respond [inline (str "UE5H")] (Some (str "STOP"))) typeError
        readAsDataUrl [FileChange (Some pngFile)])
  = {| originalImage := Some pngDataUrl;
       processedImage := Some (str "data:image/png;base64,UE5H");
       appState := success; errorMessage := [] |}
  /\
  ui (runEvents (respond [inline (str "UE5H")] (Some (str "STOP"))) typeError
        readAsDataUrl [FileChange (Some pngFile); Drop (Some textFile)])
  = {| originalImage := Some pngDataUrl;
       processedImage := Some (str "data:image/png;base64,UE5H");
       appState := error;
       errorMessage := str "Please upload a valid image file." |}.
Proof. split; reflexivity. Qed.

Lemma success_shows_png_witness :
  (exists dataUrl resultBase64,
     readAsDataUrl pngFile = Normal dataUrl /\
     fst (removeImageBackground
            (respond [inline (str "UE5H")] (Some (str "STOP"))) typeError
            dataUrl initialWorld) = Normal resultBase64 /\
     processedImage
       (ui (snd (processFile
                   (respond [inline (str "UE5H")] (Some (str "STOP")))
                   typeError readAsDataUrl pngFile initialWorld)))
     = Some (str "data:image/png;base64," ++ resultBase64))
  /\
  (exists resultBase64,
     Some (str "data:image/png;base64,UE5H")
     = Some (str "data:image/png;base64," ++ resultBase64)).
Proof.
  split.
  - apply (proj1 (success_shows_png
                    (respond [inline (str "UE5H")] (Some (str "STOP")))
                    typeError readAsDataUrl) pngFile initialWorld).
    reflexivity.
  - apply (proj2 (success_shows_png
                    (respond [inline (str "UE5H")] (Some (str "STOP")))
                    typeError readAsDataUrl)
             [FileChange (Some pngFile)]
             {| originalImage := Some pngDataUrl;
                processedImage := Some (str "data:image/png;base64,UE5H");
                appState := success; errorMessage := [] |}).
    + vm_compute. left. reflexivity.
    + reflexivity.
Defined.

End Runs.

(** ** More on the codec: which split the greedy pattern takes *)

Section GreedySplit.

Lemma repeatGreedy_none cc u v e caps k :
  repeatGreedy cc (u ++ v) e caps k = None ->
  forallb (classMatches cc) u = true ->
  k {| endIndex := e + List.length u; rest := v; captures := caps |} = None.
Proof.
  intros Hnone Hu.
  destruct (k {| endIndex := e + List.length u; rest := v; captures := caps |})
    as [y|] eqn:Hk; [|reflexivity].
  destruct (repeatGreedy_complete cc u v e caps k y Hu Hk) as [y' Hy'].
  congruence.
Qed.

(** What the greedy loop returns is what the continuation gives on the
    longest run it accepts. *)
Lemma repeatGreedy_some_longest cc input e caps k y :
  repeatGreedy cc input e caps k = Some y ->
  exists u v, input = u ++ v /\ forallb (classMatches cc) u = true /\
    k {| endIndex := e + List.length u; rest := v; captures := caps |}
    = Some y /\
    forall w1 w2, v = w1 ++ w2 -> w1 <> [] ->
      forallb (classMatches cc) w1 = true ->
      k {| endIndex := e + List.length u + List.length w1; rest := w2;
           captures := caps |} = None.
Proof.
  revert e; induction input as [|c tl IH]; intros e; simpl.
  - intros H. exists [], []. simpl. rewrite Nat.add_0_r.
    repeat split; auto. intros [|d w1] w2 Hv Hw1 _; [congruence|discriminate].
  - destruct (classMatches cc c) eqn:Hc.
    + destruct (repeatGreedy cc tl (S e) caps k) as [y'|] eqn:Hrec.
      * intros [= <-]. apply IH in Hrec.
        destruct Hrec as (u & v & -> & Hu & Hk & Hmax).
        exists (c :: u), v. simpl. rewrite Hc, Hu.
        replace (e + S (List.length u)) with (S e + List.length u) by lia.
        repeat split; auto.
      * intros Hk. exists [], (c :: tl). simpl. rewrite Nat.add_0_r.
        repeat split; auto.
        intros [|d w1] w2 Hv Hw1 Hall; [congruence|].
        injection Hv as <- ->. simpl in Hall.
        apply andb_prop in Hall as [_ Hall].
        replace (e + List.length (c :: w1)) with (S e + List.length w1)
          by (simpl; lia).
        exact (repeatGreedy_none cc w1 w2 (S e) caps k Hrec Hall).
    + intros Hk. exists [], (c :: tl). simpl. rewrite Nat.add_0_r.
      repeat split; auto.
      intros [|d w1] w2 Hv Hw1 Hall; [congruence|].
      injection Hv as <- ->. simpl in Hall. rewrite Hc in Hall. discriminate.
Qed.

Lemma run_plus_some_longest cc x k y :
  run (Plus cc) x k = Some y ->
  exists u v, u <> [] /\ rest x = u ++ v /\
    forallb (classMatches cc) u = true /\
    k {| endIndex := endIndex x + List.length u; rest := v;
         captures := captures x |} = Some y /\
    forall w1 w2, v = w1 ++ w2 -> w1 <> [] ->
      forallb (classMatches cc) w1 = true ->
      k {| endIndex := endIndex x + List.length u + List.length w1;
           rest := w2; captures := captures x |} = None.
Proof.
  destruct x as [e inp caps]; simpl.
  destruct inp as [|c tl]; [discriminate|].
  destruct (classMatches cc c) eqn:Hc; [|discriminate].
  intros H. apply repeatGreedy_some_longest in H.
  destruct H as (u & v & -> & Hu & Hk & Hmax).
  exists (c :: u), v. simpl. rewrite Hc, Hu.
  replace (e + S (List.length u)) with (S e + List.length u) by lia.
  repeat split; auto. discriminate.
Qed.

(** The marker does not overlap itself: where it stands again after a
    first marker, it stands wholly in what follows the first. *)
Lemma later_marker_split (h : char16) (pre X m Y P : jsstring) :
  ~ In h pre -> X ++ (h :: m) ++ Y = pre ++ P ->
  exists X', P = X' ++ (h :: m) ++ Y.
Proof.
  revert X; induction pre as [|a pre IH]; intros X Hpre Heq; simpl in *.
  - eauto.
  - destruct X as [|x X]; simpl in Heq.
    + injection Heq as -> _. tauto.
    + injection Heq as _ Heq. apply (IH X); tauto.
Qed.

Lemma marker_again X Y P :
  X <> [] -> X ++ marker ++ Y = marker ++ P ->
  exists X', P = X' ++ marker ++ Y.
Proof.
  intros HX Heq. destruct X as [|x X]; [congruence|].
  change marker with (semicolon :: str "base64,") in *.
  simpl in Heq. injection Heq as _ Heq.
  apply (later_marker_split semicolon (str "base64,") X (str "base64,") Y P).
  - vm_compute. intuition discriminate.
  - exact Heq.
Qed.

Lemma oneLine_app u v : oneLine (u ++ v) = oneLine u && oneLine v.
Proof. apply forallb_app. Qed.

Lemma oneLine_marker : oneLine marker = true.
Proof. reflexivity. Qed.

End GreedySplit.

Section CodecSplit.

Lemma startsWith_app (p r : jsstring) : startsWith (p ++ r) p = true.
Proof.
  induction p as [|c p IH]; simpl.
  - now destruct r.
  - now rewrite N.eqb_refl.
Qed.

Lemma dataUrl_oneLine T P :
  oneLine T = true -> oneLine P = true -> oneLine (dataUrl T P) = true.
Proof.
  intros HT HP. unfold dataUrl.
  now rewrite !oneLine_app, HT, HP.
Qed.

(** X1. [parseDataUrl] returns the media type [T] and the payload [P]
    exactly for the texts [data:T;base64,P] on one line with both parts
    present in which [P] holds no further [;base64,] with text after it:
    the first parenthesis runs up to the last place where the rest of the
    pattern still fits. *)
Theorem parseDataUrl_last_split s T P :
  parseDataUrl s = Normal {| base64Data := Some P; mimeType := Some T |}
  <->
  s = dataUrl T P /\ T <> [] /\ P <> [] /\
  oneLine T = true /\ oneLine P = true /\
  (forall X Y, P = X ++ marker ++ Y -> Y = []).
Proof.
  split.
  - unfold parseDataUrl. rewrite stringMatch_dataUrlPattern.
    destruct (run dataUrlPattern _ Some) as [y|] eqn:H; [|discriminate].
    unfold dataUrlPattern in H. cbn [run endIndex Nat.eqb] in H.
    apply run_literal_some in H. cbn [rest endIndex captures] in H.
    destruct H as (r & -> & H). cbn [run] in H.
    apply run_plus_some_longest in H. cbn [rest endIndex captures] in H.
    destruct H as (T0 & v & HT & -> & HlineT & H & Hmax).
    apply run_literal_some in H. cbn [rest endIndex captures] in H.
    destruct H as (P0 & -> & H).
    apply payload_run_some in H. cbn [rest captures] in H.
    destruct H as (HP & HlineP & Hcaps).
    unfold group. cbn [groups]. rewrite Hcaps, firstn_span. cbn.
    intros [= <- <-]. repeat split; auto.
    intros X Y HXY. destruct Y as [|c Y]; [reflexivity|]. exfalso.
    subst P0. rewrite !oneLine_app in HlineP.
    apply andb_prop in HlineP as [HlX HlY].
    apply andb_prop in HlY as [_ HlY].
    specialize (Hmax (marker ++ X) (marker ++ c :: Y)).
    rewrite <- app_assoc in Hmax. specialize (Hmax eq_refl).
    rewrite run_literal_app, payload_run in Hmax; try assumption;
      try discriminate.
    assert (Hw : forallb (classMatches Dot) (marker ++ X) = true).
    { change (oneLine (marker ++ X) = true).
      now rewrite oneLine_app, oneLine_marker. }
    assert (Hne : marker ++ X <> []) by discriminate.
    specialize (Hmax Hne Hw). discriminate Hmax.
  - intros (-> & HT & HP & HlineT & HlineP & Hlast).
    unfold parseDataUrl. rewrite stringMatch_dataUrlPattern.
    assert (Hrun : run dataUrlPattern
              {| endIndex := 0; rest := dataUrl T P; captures := [] |} Some
            = Some {| endIndex :=
                        0 + List.length (str "data:") + List.length T
                        + List.length marker + List.length P;
                      rest := [];
                      captures := [(2, P); (1, T)] |}).
    { unfold dataUrlPattern, dataUrl. cbn [run endIndex Nat.eqb].
      rewrite run_literal_app. cbn [run].
      apply run_plus_longest with (u := T) (v := marker ++ P); auto.
      - intros w1 w2 Hv Hw1. cbn [rest endIndex captures].
        match goal with |- ?r = None => destruct r eqn:E; [|reflexivity] end.
        apply run_literal_some in E. cbn [rest endIndex captures] in E.
        destruct E as (r & -> & E).
        apply payload_run_some in E. cbn [rest] in E. destruct E as (Hr & _).
        destruct (marker_again w1 r P Hw1 (eq_sym Hv)) as (X' & HX').
        apply Hlast in HX'. congruence.
      - cbn [rest endIndex captures]. rewrite run_literal_app.
        rewrite payload_run by assumption. cbn [rest endIndex captures].
        now rewrite firstn_span. }
    rewrite Hrun. reflexivity.
Qed.

(** X2. A text with a line terminator (LF, CR, U+2028 or U+2029) anywhere,
    be it inside the payload, is rejected. *)
Theorem parseDataUrl_line_break s c :
  In c s -> isLineTerminator c = true ->
  parseDataUrl s = Throw (ErrorObject (str "Invalid data URL format")).
Proof.
  intros Hin Hc. apply parseDataUrl_rejects.
  intros (T & P & _ & _ & HlT & HlP & ->).
  pose proof (dataUrl_oneLine T P HlT HlP) as Hline.
  unfold oneLine in Hline. rewrite forallb_forall in Hline.
  apply Hline in Hin. now rewrite Hc in Hin.
Qed.

(** X3. A text that does not start with [data:] in these very characters,
    and a text without [;base64,] in it (a data URL in percent encoding),
    is rejected. *)
Theorem parseDataUrl_prefix_and_marker :
  (forall s,
     startsWith s (str "data:") = false ->
     parseDataUrl s = Throw (ErrorObject (str "Invalid data URL format")))
  /\
  (forall s,
     (forall X Y, s <> X ++ str ";base64," ++ Y) ->
     parseDataUrl s = Throw (ErrorObject (str "Invalid data URL format"))).
Proof.
  split; intros s H; apply parseDataUrl_rejects;
    intros (T & P & _ & _ & _ & _ & ->); unfold dataUrl in H.
  - now rewrite startsWith_app in H.
  - apply (H (str "data:" ++ T) P). now rewrite <- app_assoc.
Qed.

End CodecSplit.

(** ** More on the request: what is sent and what comes back *)

Section RequestOutcome.

Variable generateContent :
  list Request -> Request -> Completion GenerateContentResponse.
Variable typeErrorMessage : BadRead -> jsstring.

Lemma firstInlineData_some parts found :
  firstInlineData parts = Some found ->
  exists before part blob after,
    parts = before ++ part :: after /\
    Forall (fun p => inlineData p = None) before /\
    inlineData part = Some blob /\ data blob = found.
Proof.
  induction parts as [|p parts IH]; simpl; [discriminate|].
  destruct (inlineData p) as [blob|] eqn:Hp.
  - intros [= <-]. exists [], p, blob, parts. auto.
  - intros H. destruct (IH H) as (before & part & blob & after & -> & Hb & Hi).
    exists (p :: before), part, blob, after. auto.
Qed.

(** X4. A call sends one request and no more, whatever comes back, and
    none at all for a malformed data URL; the request names the model,
    carries the two captures of the data URL as inline data, then the
    prompt, and asks for image and text.  Nothing else of the world is
    touched. *)
Theorem removeImageBackground_one_request dataUrl w :
  (forall e,
     parseDataUrl dataUrl = Throw e ->
     snd (removeImageBackground generateContent typeErrorMessage dataUrl w)
     = w)
  /\
  (forall T P,
     parseDataUrl dataUrl
     = Normal {| base64Data := Some P; mimeType := Some T |} ->
     snd (removeImageBackground generateContent typeErrorMessage dataUrl w)
     = {| ui := ui w; painted := painted w;
          network :=
            {| model := str "gemini-2.5-flash-image-preview";
               contents := [InlinePart (Some P) (Some T); TextPart PROMPT];
               responseModalities := [IMAGE; TEXT] |} :: network w;
          fileInput := fileInput w |}).
Proof.
  split.
  - intros e He. open_service. now rewrite He.
  - intros T P Hparse. open_service. rewrite Hparse. simpl.
    service_cases generateContent.
Qed.

Lemma apiError_startsWith message :
  startsWith (apiErrorPrefix ++ message) (str "API Error: ") = true.
Proof. apply startsWith_app. Qed.

(** X5. Whatever the remote call does, a call that fails throws an
    [Error], never a bare value, and its message is 'Invalid data URL
    format', or starts with 'API Error: ', or is the fixed text for an
    unknown failure. *)
Theorem removeImageBackground_throws_error dataUrl w e :
  fst (removeImageBackground generateContent typeErrorMessage dataUrl w)
  = Throw e ->
  exists message,
    e = ErrorObject message /\
    (message = str "Invalid data URL format"
     \/ startsWith message (str "API Error: ") = true
     \/ message
        = str "An unknown error occurred while communicating with the API.").
Proof.
  assert (Hthrown : forall message,
    exists m0,
      ErrorObject (apiErrorPrefix ++ message) = ErrorObject m0 /\
      (m0 = str "Invalid data URL format"
       \/ startsWith m0 (str "API Error: ") = true
       \/ m0 = str "An unknown error occurred while communicating with the API.")).
  { intros message. eexists. split; [reflexivity|].
    right; left. exact (apiError_startsWith _). }
  open_service.
  destruct (parseDataUrl dataUrl) as [parsed|e0] eqn:Hparse; cbn [fst].
  - match goal with
    | |- context [generateContent ?sent ?req] =>
        destruct (generateContent sent req) as [response|[m|v]]; cbn [fst]
    end.
    + destruct (candidates response) as [[|first others]|]; cbn [fst];
        try (intros [= <-]; apply Hthrown).
      destruct (content first) as [body|]; cbn [fst];
        try (intros [= <-]; apply Hthrown).
      destruct (parts body) as [array|]; cbn [fst];
        try (intros [= <-]; apply Hthrown).
      destruct (firstInlineData array); cbn [fst]; [discriminate|].
      destruct (isNotStop (finishReason first)); cbn [fst];
        intros [= <-]; apply Hthrown.
    + intros [= <-]. apply Hthrown.
    + intros [= <-]. eexists. split; [reflexivity|]. auto.
  - intros [= <-]. rewrite (parseDataUrl_throw _ _ Hparse).
    eexists. split; [reflexivity|]. auto.
Qed.

(** X6. A call returns only what the response holds: when it returns, the
    data URL was well formed, the remote call was answered, and the value
    is the data of the first part of the first candidate that has inline
    data. *)
Theorem removeImageBackground_returns_inline dataUrl w found :
  fst (removeImageBackground generateContent typeErrorMessage dataUrl w)
  = Normal found ->
  exists parsed response first others body before part blob after,
    parseDataUrl dataUrl = Normal parsed /\
    generateContent (network w)
      (requestOf (InlinePart (base64Data parsed) (mimeType parsed))
         (TextPart PROMPT)) = Normal response /\
    candidates response = Some (first :: others) /\
    content first = Some body /\
    parts body = Some (before ++ part :: after) /\
    Forall (fun p => inlineData p = None) before /\
    inlineData part = Some blob /\ data blob = found.
Proof.
  open_service.
  destruct (parseDataUrl dataUrl) as [parsed|e0]; simpl; [|discriminate].
  destruct (generateContent _ _) as [response|[m|v]] eqn:Hcall; simpl;
    try discriminate.
  destruct (candidates response) as [[|first others]|] eqn:Hcand; simpl;
    try discriminate.
  destruct (content first) as [body|] eqn:Hbody; simpl; [|discriminate].
  destruct (parts body) as [array|] eqn:Harray; simpl; [|discriminate].
  destruct (firstInlineData array) as [d|] eqn:Hfirst; simpl.
  - intros [= <-]. apply firstInlineData_some in Hfirst.
    destruct Hfirst as (before & part & blob & after & -> & H2 & H3 & H4).
    exists parsed, response, first, others, body, before, part, blob, after.
    auto 10.
  - destruct (isNotStop (finishReason first)); discriminate.
Qed.

(** X7. How the remote call settles decides the failure: rejected with an
    [Error], its message comes back after 'API Error: '; rejected with any
    other value, the fixed text for an unknown failure comes back; answered
    without candidates, or with a first candidate without content or
    without parts, the TypeError of the bare read of line 46 comes back
    after 'API Error: ', and the test of the finish reason is never
    reached. *)
Theorem removeImageBackground_remote_failure dataUrl parsed w :
  parseDataUrl dataUrl = Normal parsed ->
  let sent :=
    generateContent (network w)
      (requestOf (InlinePart (base64Data parsed) (mimeType parsed))
         (TextPart PROMPT)) in
  let outcome :=
    fst (removeImageBackground generateContent typeErrorMessage dataUrl w) in
  (forall message,
     sent = Throw (ErrorObject message) ->
     outcome = Throw (ErrorObject (str "API Error: " ++ message)))
  /\
  (forall value,
     sent = Throw (OtherValue value) ->
     outcome
     = Throw (ErrorObject
         (str "An unknown error occurred while communicating with the API.")))
  /\
  (forall response,
     sent = Normal response -> candidates response = Some [] ->
     outcome
     = Throw (ErrorObject
                (str "API Error: " ++ typeErrorMessage ContentOfUndefined)))
  /\
  (forall response,
     sent = Normal response -> candidates response = None ->
     outcome
     = Throw (ErrorObject
                (str "API Error: " ++ typeErrorMessage FirstOfUndefined)))
  /\
  (forall response first others,
     sent = Normal response ->
     candidates response = Some (first :: others) ->
     content first = None ->
     outcome
     = Throw (ErrorObject
                (str "API Error: " ++ typeErrorMessage PartsOfUndefined)))
  /\
  (forall response first others body,
     sent = Normal response ->
     candidates response = Some (first :: others) ->
     content first = Some body -> parts body = None ->
     outcome
     = Throw (ErrorObject (str "API Error: " ++ typeErrorMessage NotIterable))).
Proof.
  intros Hparse sent outcome. subst sent outcome.
  repeat split.
  - intros message H. open_service. now rewrite Hparse, H.
  - intros value H. open_service. now rewrite Hparse, H.
  - intros response H Hc.
    apply (removeImageBackground_bad_read generateContent typeErrorMessage
             dataUrl parsed response w Hparse H). now rewrite Hc.
  - intros response H Hc.
    apply (removeImageBackground_bad_read generateContent typeErrorMessage
             dataUrl parsed response w Hparse H). now rewrite Hc.
  - intros response first others H Hc Hb.
    apply (removeImageBackground_bad_read generateContent typeErrorMessage
             dataUrl parsed response w Hparse H). now rewrite Hc, Hb.
  - intros response first others body H Hc Hb Hp.
    apply (removeImageBackground_bad_read generateContent typeErrorMessage
             dataUrl parsed response w Hparse H). now rewrite Hc, Hb.
Qed.

End RequestOutcome.

(** ** More on one attempt *)

Section Attempt.

Variable generateContent :
  list Request -> Request -> Completion GenerateContentResponse.
Variable typeErrorMessage : BadRead -> jsstring.
Variable fileToDataUrl : File -> Completion jsstring.


(** X9. An attempt on an image file starts afresh: the state it ends in
    owes nothing to the images, the state and the error text shown
    before. *)
Theorem processFile_fresh file w1 w2 :
  startsWith (type file) (str "image/") = true ->
  network w1 = network w2 ->
  ui (snd (processFile generateContent typeErrorMessage fileToDataUrl
             file w1))
  = ui (snd (processFile generateContent typeErrorMessage fileToDataUrl
               file w2)).
Proof.
  intros Himg Hnet.
  pose proof (processFile_world generateContent typeErrorMessage
                fileToDataUrl file w1) as H1.
  pose proof (processFile_world generateContent typeErrorMessage
                fileToDataUrl file w2) as H2.
  cbv zeta in H1, H2. rewrite Himg in H1, H2.
  destruct (fileToDataUrl file) as [dataUrl|err].
  - destruct H1 as [_ H1], H2 as [_ H2].
    rewrite (removeImageBackground_network generateContent typeErrorMessage
               dataUrl w1 w2 Hnet) in H1.
    destruct (fst (removeImageBackground _ _ dataUrl w2)); congruence.
  - destruct H1 as (H1 & _), H2 as (H2 & _). congruence.
Qed.

End Attempt.

(** ** The shell under interleaving *)

Section Interleaving.

Variable generateContent :
  list Request -> Request -> Completion GenerateContentResponse.
Variable typeErrorMessage : BadRead -> jsstring.
Variable fileToDataUrl : File -> Completion jsstring.

Lemma removeImageBackground_commit dataUrl w :
  removeImageBackground generateContent typeErrorMessage dataUrl (commit w)
  = (fst (removeImageBackground generateContent typeErrorMessage dataUrl w),
     commit (snd (removeImageBackground generateContent typeErrorMessage
                    dataUrl w))).
Proof.
  open_service.
  destruct (parseDataUrl dataUrl) as [parsed|e]; simpl; auto.
  service_cases generateContent.
Qed.

(** What a request on the wire looks like. *)
Lemma removeImageBackground_wire dataUrl w :
  let w' := snd (removeImageBackground generateContent typeErrorMessage
                   dataUrl w) in
  network w' = network w
  \/ exists T P, T <> [] /\ P <> [] /\
       network w'
       = requestOf (InlinePart (Some P) (Some T)) (TextPart PROMPT)
         :: network w.
Proof.
  cbv zeta.
  destruct (parseDataUrl dataUrl) as [parsed|e] eqn:Hparse.
  - right. destruct (parseDataUrl_normal _ _ Hparse)
      as (T & P & HT & HP & _ & _ & _ & Hm & Hb).
    exists T, P. repeat split; auto.
    destruct parsed as [b m]. simpl in Hm, Hb. subst b m.
    open_service. rewrite Hparse. simpl.
    service_cases generateContent.
  - left. open_service. now rewrite Hparse.
Qed.

(** The state after a handler has run up to an await. *)
Lemma fire_world ev w :
  let s := ui w in
  let w' := snd (fire ev w) in
  painted w' = painted w /\ network w' = network w /\
  (ui w' = s
   \/ ui w' = {| originalImage := originalImage s;
                 processedImage := processedImage s;
                 appState := error; errorMessage := invalidFileMessage |}
   \/ ui w' = {| originalImage := originalImage s; processedImage := None;
                 appState := processing; errorMessage := [] |}
   \/ ui w' = initialUi).
Proof.
  assert (Hstart : forall file,
    let s := ui w in
    let w' := snd (processFileStart file w) in
    painted w' = painted w /\ network w' = network w /\
    (ui w' = s
     \/ ui w' = {| originalImage := originalImage s;
                   processedImage := processedImage s;
                   appState := error; errorMessage := invalidFileMessage |}
     \/ ui w' = {| originalImage := originalImage s; processedImage := None;
                   appState := processing; errorMessage := [] |}
     \/ ui w' = initialUi)).
  { intros file. unfold processFileStart.
    destruct (startsWith (type file) (str "image/")); simpl; auto 6. }
  destruct ev as [[file|]|[file|]|]; cbn [fire].
  - apply Hstart.
  - simpl. auto.
  - destruct (appState (ui w)); try apply Hstart; simpl; auto.
  - destruct (appState (ui w)); simpl; auto.
  - unfold bind, ret.
    destruct (handleReset_world w) as (Hfst & Hui & Hnet & Hp).
    destruct (handleReset w) as [c w0]. simpl in *. subst c. simpl.
    rewrite Hui. auto 6.
Qed.

(** The state after a waiting attempt has gone on. *)
Lemma resume_world p w :
  let s := ui w in
  let w' := snd (resume generateContent typeErrorMessage fileToDataUrl
                   p w) in
  painted w' = painted w /\
  ((exists dataUrl,
      ui w' = {| originalImage := Some dataUrl;
                 processedImage := processedImage s;
                 appState := appState s; errorMessage := errorMessage s |})
   \/ (exists message,
         ui w' = {| originalImage := None;
                    processedImage := processedImage s;
                    appState := error;
                    errorMessage :=
                      str "Failed to process image. " ++ message |})
   \/ (exists resultBase64,
         p = Calling (Normal resultBase64) /\
         ui w' = {| originalImage := originalImage s;
                    processedImage := Some (pngPrefix ++ resultBase64);
                    appState := success;
                    errorMessage := errorMessage s |})).
Proof.
  destruct p as [file|[r|err]]; cbn [resume].
  - destruct (fileToDataUrl file) as [dataUrl|err].
    + unfold bind, setOriginalImage, modifyUi. simpl.
      match goal with
      | |- context [removeImageBackground _ _ _ ?w2] =>
          pose proof (removeImageBackground_frame generateContent
                        typeErrorMessage dataUrl w2) as Hframe;
          destruct (removeImageBackground generateContent typeErrorMessage
                      dataUrl w2) as [c w3]
      end.
      simpl in *. destruct Hframe as (-> & -> & _). eauto 6.
    + simpl. split; [reflexivity|]. right; left. eauto.
  - simpl. split; [reflexivity|]. right; right. eauto.
  - simpl. split; [reflexivity|]. right; left. eauto.
Qed.

End Interleaving.

Section LoopInvariants.

Variable generateContent :
  list Request -> Request -> Completion GenerateContentResponse.
Variable typeErrorMessage : BadRead -> jsstring.
Variable fileToDataUrl : File -> Completion jsstring.

(** A property of the UI state that every piece of the handlers keeps. *)
Section Kept.

Variable Q : UiState -> Prop.
Hypothesis Q_initial : Q initialUi.
Hypothesis Q_rejected : forall s,
  Q s -> Q {| originalImage := originalImage s;
              processedImage := processedImage s;
              appState := error; errorMessage := invalidFileMessage |}.
Hypothesis Q_started : forall s,
  Q s -> Q {| originalImage := originalImage s; processedImage := None;
              appState := processing; errorMessage := [] |}.
Hypothesis Q_loaded : forall s dataUrl,
  Q s -> Q {| originalImage := Some dataUrl;
              processedImage := processedImage s;
              appState := appState s; errorMessage := errorMessage s |}.
Hypothesis Q_failed : forall s message,
  Q s -> Q {| originalImage := None; processedImage := processedImage s;
              appState := error;
              errorMessage := str "Failed to process image. " ++ message |}.
Hypothesis Q_done : forall s resultBase64,
  Q s -> Q {| originalImage := originalImage s;
              processedImage := Some (pngPrefix ++ resultBase64);
              appState := success; errorMessage := errorMessage s |}.

Lemma step_kept m a :
  Q (ui (world m)) -> Forall Q (painted (world m)) ->
  Q (ui (world (step generateContent typeErrorMessage fileToDataUrl m a)))
  /\ Forall Q
       (painted
          (world (step generateContent typeErrorMessage fileToDataUrl m a))).
Proof.
  intros Hui Hp. destruct m as [w ps]. simpl in *.
  destruct a as [ev|i]; simpl.
  - pose proof (fire_world ev w) as H. cbv zeta in H.
    destruct (fire ev w) as [r w']. simpl in *.
    destruct H as (Hpainted & _ & Hshape).
    assert (Q (ui w')) by
      (destruct Hshape as [-> | [-> | [-> | ->]]]; auto).
    split; [assumption|]. constructor; [assumption|]. now rewrite Hpainted.
  - destruct (nth_error ps i) as [p|]; [|auto].
    pose proof (resume_world generateContent typeErrorMessage fileToDataUrl
                  p w) as H.
    cbv zeta in H.
    destruct (resume generateContent typeErrorMessage fileToDataUrl p w)
      as [r w'].
    simpl in *.
    destruct H as (Hpainted & Hshape).
    assert (Q (ui w')) by
      (destruct Hshape as [[d ->]|[[msg ->]|[res [_ ->]]]]; auto).
    split; [assumption|]. constructor; [assumption|]. now rewrite Hpainted.
Qed.

Lemma runActions_kept acts :
  Q (ui (world (runActions generateContent typeErrorMessage
         fileToDataUrl acts)))
  /\ Forall Q (painted (world (runActions generateContent typeErrorMessage
         fileToDataUrl acts))).
Proof.
  unfold runActions.
  induction acts as [|a acts IH] using rev_ind.
  - simpl. auto.
  - rewrite fold_left_app. simpl. destruct IH. now apply step_kept.
Qed.

End Kept.

Lemma painted_success_png acts s :
  In s (painted (world (runActions generateContent typeErrorMessage
         fileToDataUrl acts))) ->
  appState s = success ->
  exists resultBase64, processedImage s = Some (pngPrefix ++ resultBase64).
Proof.
  intros Hin.
  assert (H := runActions_kept
    (fun s => appState s = success ->
       exists r, processedImage s = Some (pngPrefix ++ r))).
  destruct (H ltac:(discriminate) ltac:(discriminate) ltac:(discriminate)
              ltac:(auto) ltac:(discriminate) ltac:(simpl; eauto) acts)
    as [_ Hall].
  rewrite Forall_forall in Hall. auto.
Qed.

Lemma painted_error_text acts s :
  In s (painted (world (runActions generateContent typeErrorMessage
         fileToDataUrl acts))) ->
  appState s = error ->
  errorMessage s = invalidFileMessage
  \/ exists message,
       errorMessage s = str "Failed to process image. " ++ message.
Proof.
  intros Hin.
  assert (H := runActions_kept
    (fun s => appState s = error ->
       errorMessage s = invalidFileMessage
       \/ exists message,
            errorMessage s = str "Failed to process image. " ++ message)).
  destruct (H ltac:(discriminate) ltac:(simpl; auto) ltac:(discriminate)
              ltac:(auto) ltac:(simpl; eauto) ltac:(discriminate) acts)
    as [_ Hall].
  rewrite Forall_forall in Hall. auto.
Qed.

(** X11. Whatever the order in which events and settling attempts come,
    every state painted in [success] shows a processed image that is
    'data:image/png;base64,' followed by a result of the service. *)
Theorem interleaved_success_png acts s :
  In s (painted (world (runActions generateContent typeErrorMessage
         fileToDataUrl acts))) ->
  appState s = success ->
  exists resultBase64,
    processedImage s = Some (str "data:image/png;base64," ++ resultBase64).
Proof.
  intros Hin.
  pose proof (runActions_kept
    (fun s => appState s = success ->
       exists r, processedImage s = Some (pngPrefix ++ r))) as H.
  assert (Hall : Forall (fun s => appState s = success ->
                   exists r, processedImage s = Some (pngPrefix ++ r))
                   (painted (world (runActions generateContent
                      typeErrorMessage fileToDataUrl acts)))).
  { apply H; try discriminate; auto. simpl. eauto. }
  rewrite Forall_forall in Hall. exact (Hall s Hin).
Qed.

(** X12. Whatever the order in which events and settling attempts come,
    every state painted in [error] carries a text: 'Please upload a valid
    image file.', or 'Failed to process image. ' followed by a message. *)
Theorem interleaved_error_text acts s :
  In s (painted (world (runActions generateContent typeErrorMessage
         fileToDataUrl acts))) ->
  appState s = error ->
  errorMessage s = str "Please upload a valid image file."
  \/ exists message,
       errorMessage s = str "Failed to process image. " ++ message.
Proof.
  intros Hin.
  pose proof (runActions_kept
    (fun s => appState s = error ->
       errorMessage s = invalidFileMessage
       \/ exists message,
            errorMessage s = str "Failed to process image. " ++ message))
    as H.
  assert (Hall : Forall (fun s => appState s = error ->
                   errorMessage s = invalidFileMessage
                   \/ exists message,
                        errorMessage s
                        = str "Failed to process image. " ++ message)
                   (painted (world (runActions generateContent
                      typeErrorMessage fileToDataUrl acts)))).
  { apply H; try discriminate; simpl; eauto. }
  rewrite Forall_forall in Hall. exact (Hall s Hin).
Qed.

End LoopInvariants.

Section LoopRuns.

Variable generateContent :
  list Request -> Request -> Completion GenerateContentResponse.
Variable typeErrorMessage : BadRead -> jsstring.
Variable fileToDataUrl : File -> Completion jsstring.

(** X10. An attempt whose two awaits settle before anything else happens
    is the handler run to its end: the same requests leave and the same
    states are painted, in the same order. *)
Theorem settled_at_once_is_processFile file w :
  fold_left (step generateContent typeErrorMessage fileToDataUrl)
    [Fire (FileChange (Some file)); Settle 0; Settle 0]
    {| world := w; pending := [] |}
  = {| world := dispatch generateContent typeErrorMessage fileToDataUrl w
                  (FileChange (Some file));
       pending := [] |}.
Proof.
  unfold dispatch. cbn [handle handleFileChange].
  cbn [fold_left step fire world pending].
  unfold processFileStart, processFile.
  destruct (startsWith (type file) (str "image/")); cbn [negb].
  - unfold bind, tryCatch, await, lift, setAppState, setProcessedImage,
      setErrorMessage, setOriginalImage, modifyUi, ret.
    cbn -[removeImageBackground commit].
    destruct (fileToDataUrl file) as [dataUrl|err];
      cbn -[removeImageBackground commit]; [|reflexivity].
    match goal with
    | |- context [removeImageBackground _ _ _ (commit ?w2)] =>
        rewrite (removeImageBackground_commit generateContent
                   typeErrorMessage dataUrl w2);
        destruct (removeImageBackground generateContent typeErrorMessage
                    dataUrl w2) as [[r|err] w3]
    end; reflexivity.
  - reflexivity.
Qed.

Lemma fire_spawned ev w :
  spawned (fst (fire ev w)) = []
  \/ (bringsFile (Fire ev) = true
      /\ exists file, spawned (fst (fire ev w)) = [Reading file]).
Proof.
  assert (Hstart : forall file,
    spawned (fst (processFileStart file w)) = []
    \/ exists f, spawned (fst (processFileStart file w)) = [Reading f]).
  { intros file. unfold processFileStart.
    destruct (startsWith (type file) (str "image/")); simpl; eauto. }
  destruct ev as [[file|]|[file|]|]; cbn [fire bringsFile].
  - destruct (Hstart file); auto.
  - auto.
  - destruct (appState (ui w)); try (destruct (Hstart file); auto); auto.
  - destruct (appState (ui w)); auto.
  - left. unfold bind, ret.
    destruct (handleReset_world w) as (Hfst & _).
    destruct (handleReset w) as [c w0]. simpl in *. now subst c.
Qed.

Lemma resume_effect p w :
  let r := resume generateContent typeErrorMessage fileToDataUrl p w in
  filter isReading (spawned (fst r)) = []
  /\ (network (snd r) = network w
      \/ (isReading p = true
          /\ exists T P, T <> [] /\ P <> [] /\
               network (snd r)
               = requestOf (InlinePart (Some P) (Some T)) (TextPart PROMPT)
                 :: network w)).
Proof.
  destruct p as [file|[res|err]]; cbn [resume]; [|simpl; auto..].
  destruct (fileToDataUrl file) as [dataUrl|err]; [|simpl; auto].
  unfold bind, setOriginalImage, modifyUi. simpl.
  match goal with
  | |- context [removeImageBackground _ _ _ ?w2] =>
      pose proof (removeImageBackground_wire generateContent
                    typeErrorMessage dataUrl w2) as Hwire;
      destruct (removeImageBackground generateContent typeErrorMessage
                  dataUrl w2) as [c w3]
  end.
  simpl in *. split; [reflexivity|].
  destruct Hwire as [->|(T & P & HT & HP & ->)]; eauto 10.
Qed.

Lemma filter_removeNth {A} (f : A -> bool) i l p :
  nth_error l i = Some p ->
  List.length (filter f (removeNth i l)) + (if f p then 1 else 0)
  = List.length (filter f l).
Proof.
  revert i; induction l as [|a l IH]; intros [|i]; simpl; try discriminate.
  - intros [= ->]. destruct (f p); simpl; lia.
  - intros H. specialize (IH i H). destruct (f a); simpl; lia.
Qed.

Lemma step_requests
    (wf : Request -> Prop) m a n :
  (forall T P, T <> [] -> P <> [] ->
     wf (requestOf (InlinePart (Some P) (Some T)) (TextPart PROMPT))) ->
  Forall wf (network (world m)) ->
  List.length (network (world m))
  + List.length (filter isReading (pending m)) <= n ->
  let m' := step generateContent typeErrorMessage fileToDataUrl m a in
  Forall wf (network (world m'))
  /\ List.length (network (world m'))
     + List.length (filter isReading (pending m'))
     <= n + (if bringsFile a then 1 else 0).
Proof.
  intros Hwf Hall Hlen. destruct m as [w ps]. simpl in *.
  destruct a as [ev|i]; cbn [step world pending].
  - pose proof (fire_world ev w) as H. cbv zeta in H.
    pose proof (fire_spawned ev w) as Hs.
    destruct (fire ev w) as [r w']. simpl in *.
    destruct H as (_ & Hnet & _). rewrite Hnet. split; [assumption|].
    rewrite filter_app, length_app.
    destruct Hs as [->|(-> & f & ->)]; simpl; [|lia].
    destruct (bringsFile (Fire ev)); lia.
  - destruct (nth_error ps i) as [p|] eqn:Hp; simpl; [|split; [auto|lia]].
    pose proof (resume_effect p w) as H. cbv zeta in H.
    pose proof (filter_removeNth isReading i ps p Hp) as Hrem.
    destruct (resume generateContent typeErrorMessage fileToDataUrl p w)
      as [r w']. simpl in *.
    destruct H as (Hspawn & Hnet).
    rewrite filter_app, length_app, Hspawn. simpl.
    destruct Hnet as [->|(Hread & T & P & HT & HP & ->)].
    + split; [assumption|]. destruct (isReading p); lia.
    + split; [constructor; auto|]. rewrite Hread in Hrem. simpl. lia.
Qed.

(** X13. Whatever the order in which events and settling attempts come,
    every request sent names the model, carries a payload and a media type
    that are both there, then the prompt, and asks for image and text; and
    there are never more requests than files handed over by the user: no
    call is made twice. *)
Theorem interleaved_requests acts :
  let m := runActions generateContent typeErrorMessage fileToDataUrl acts in
  (forall req,
     In req (network (world m)) ->
     exists T P, T <> [] /\ P <> [] /\
       req = {| model := str "gemini-2.5-flash-image-preview";
                contents := [InlinePart (Some P) (Some T); TextPart PROMPT];
                responseModalities := [IMAGE; TEXT] |})
  /\ List.length (network (world m))
     <= List.length (filter bringsFile acts).
Proof.
  cbv zeta.
  set (wf := fun req => exists T P, T <> [] /\ P <> [] /\
       req = {| model := str "gemini-2.5-flash-image-preview";
                contents := [InlinePart (Some P) (Some T); TextPart PROMPT];
                responseModalities := [IMAGE; TEXT] |}).
  assert (H : Forall wf (network (world (runActions generateContent
                typeErrorMessage fileToDataUrl acts)))
    /\ List.length (network (world (runActions generateContent
                typeErrorMessage fileToDataUrl acts)))
       + List.length (filter isReading (pending (runActions generateContent
                typeErrorMessage fileToDataUrl acts)))
       <= List.length (filter bringsFile acts)).
  { unfold runActions. induction acts as [|a acts IH] using rev_ind.
    - simpl. auto.
    - rewrite fold_left_app, filter_app, length_app. cbn [fold_left].
      destruct IH as [IH1 IH2].
      destruct (step_requests wf _ a _ ltac:(unfold wf; eauto 6) IH1 IH2)
        as [H1 H2].
      split; [exact H1|]. simpl. destruct (bringsFile a); simpl in *; lia. }
  destruct H as [H1 H2]. rewrite Forall_forall in H1. split; [exact H1|lia].
Qed.

(** X14. A reset cancels nothing: when the answer of the service comes
    after a reset, the UI goes from [idle] to [success] all the same, with
    the result shown and no original image beside it. *)
Theorem late_answer_after_reset m i resultBase64 :
  nth_error (pending m) i = Some (Calling (Normal resultBase64)) ->
  ui (world
        (step generateContent typeErrorMessage fileToDataUrl
           (step generateContent typeErrorMessage fileToDataUrl m
              (Fire Reset))
           (Settle i)))
  = {| originalImage := None;
       processedImage := Some (str "data:image/png;base64," ++ resultBase64);
       appState := success; errorMessage := [] |}.
Proof.
  intros Hp. destruct m as [w ps]. cbn [step fire world pending] in *.
  unfold bind, ret.
  destruct (handleReset_world w) as (Hfst & Hui & _).
  destruct (handleReset w) as [c w0]. simpl in Hfst, Hui. subst c.
  cbn [spawned world pending]. rewrite app_nil_r, Hp.
  cbn. now rewrite Hui.
Qed.

End LoopRuns.

(** ** What the screen shows *)

Section Screen.

Variable generateContent :
  list Request -> Request -> Completion GenerateContentResponse.
Variable typeErrorMessage : BadRead -> jsstring.
Variable fileToDataUrl : File -> Completion jsstring.

Lemma isState_eq a b : isState a b = true <-> a = b.
Proof. destruct a, b; simpl; split; congruence. Qed.

(** X15. Whatever the order in which events and settling attempts come:
    where the 'Download PNG' button is on the screen, the result pane
    shows the processed PNG image and [handleDownload] clicks a link to
    that very image under the name 'background-removed.png', taking the
    link off the page again; and where the result pane shows the error
    panel, the state is [error] and the panel has one of the two texts. *)
Theorem painted_screen acts s :
  In s (painted (world (runActions generateContent typeErrorMessage
                          fileToDataUrl acts))) ->
  (footer (render s) = Some true ->
   exists resultBase64,
     body (result (render s))
     = Children
         (Some (ResultImage (str "data:image/png;base64," ++ resultBase64)))
     /\ handleDownload s
        = [CreateAnchor;
           SetHref (str "data:image/png;base64," ++ resultBase64);
           SetDownload (str "background-removed.png");
           AppendToBody; Click; RemoveFromBody])
  /\
  (forall message,
     body (result (render s)) = Children (Some (ErrorDisplay message)) ->
     appState s = error
     /\ (message = str "Please upload a valid image file."
         \/ exists m, message = str "Failed to process image. " ++ m)).
Proof.
  intros Hin. split.
  - unfold render, ImageDisplay. cbn [footer result body].
    destruct (isState (appState s) idle); cbn [negb]; [discriminate|].
    intros [= Hs]. apply isState_eq in Hs.
    destruct (painted_success_png generateContent typeErrorMessage
                fileToDataUrl acts s Hin Hs) as [r Hr].
    exists r. unfold handleDownload. rewrite Hs, Hr. split; reflexivity.
  - unfold render, ImageDisplay. cbn [result body]. intros message.
    destruct (isState (appState s) processing); [discriminate|].
    destruct (isState (appState s) success && truthy (processedImage s)).
    + destruct (processedImage s); simpl; [|discriminate]. discriminate.
    + destruct (isState (appState s) error) eqn:He; [|discriminate].
      apply isState_eq in He. intros [= <-]. split; [assumption|].
      exact (painted_error_text generateContent typeErrorMessage
               fileToDataUrl acts s Hin He).
Qed.

End Screen.

(** ** More concrete runs *)

Section MoreRuns.

Lemma parseDataUrl_last_split_witness :
  parseDataUrl (dataUrl (str "image/png") (str "iVBORw0KGgo="))
  = Normal {| base64Data := Some (str "iVBORw0KGgo=");
              mimeType := Some (str "image/png") |}
  /\ str "data:a;base64,b;base64,c" = dataUrl (str "a;base64,b") (str "c").
Proof.
  split.
  - apply (proj2 (parseDataUrl_last_split
                    (dataUrl (str "image/png") (str "iVBORw0KGgo="))
                    (str "image/png") (str "iVBORw0KGgo="))).
    repeat split; try discriminate.
    intros X Y H. exfalso.
    assert (Hin : In semicolon (str "iVBORw0KGgo=")).
    { rewrite H. apply in_or_app. right. left. reflexivity. }
    cbv in Hin. intuition discriminate.
  - apply (proj1 (parseDataUrl_last_split (str "data:a;base64,b;base64,c")
                    (str "a;base64,b") (str "c"))).
    reflexivity.
Defined.

Lemma parseDataUrl_line_break_witness :
  parseDataUrl (str "data:image/png;base64,iVBORw0K
Ggo=")
  = Throw (ErrorObject (str "Invalid data URL format")).
Proof.
  apply (parseDataUrl_line_break _ 10%N).
  - vm_compute. tauto.
  - reflexivity.
Defined.

Lemma parseDataUrl_prefix_and_marker_witness :
  parseDataUrl (str "DATA:image/png;base64,iVBORw0KGgo=")
  = Throw (ErrorObject (str "Invalid data URL format"))
  /\ parseDataUrl (str "data:text/plain,hello")
     = Throw (ErrorObject (str "Invalid data URL format")).
Proof.
  split.
  - apply (proj1 parseDataUrl_prefix_and_marker). reflexivity.
  - apply (proj2 parseDataUrl_prefix_and_marker).
    intros X Y H.
    assert (Hin : In semicolon (str "data:text/plain,hello")).
    { rewrite H. apply in_or_app. right. left. reflexivity. }
    cbv in Hin. intuition discriminate.
Defined.

Lemma removeImageBackground_one_request_witness :
  snd (removeImageBackground (respond [] None) typeError (str "photo.png")
         initialWorld) = initialWorld
  /\ network (snd (removeImageBackground (respond [] None) typeError
                     pngDataUrl initialWorld))
     = [pngRequest].
Proof.
  split.
  - apply (proj1 (removeImageBackground_one_request (respond [] None)
                    typeError (str "photo.png") initialWorld)
             invalidDataUrl).
    reflexivity.
  - rewrite (proj2 (removeImageBackground_one_request (respond [] None)
                      typeError pngDataUrl initialWorld)
               (str "image/png") (str "iVBORw0KGgo=") eq_refl).
    reflexivity.
Defined.

Lemma removeImageBackground_throws_error_witness :
  exists message,
    ErrorObject (str "API Error: No image data found in the API response.")
    = ErrorObject message /\
    (message = str "Invalid data URL format"
     \/ startsWith message (str "API Error: ") = true
     \/ message
        = str "An unknown error occurred while communicating with the API.").
Proof.
  apply (removeImageBackground_throws_error
           (respond [] (Some (str "STOP"))) typeError pngDataUrl
           initialWorld).
  reflexivity.
Defined.

Lemma removeImageBackground_returns_inline_witness :
  exists parsed response first others body before part blob after,
    parseDataUrl pngDataUrl = Normal parsed /\
    respond [textOnly (str "Here it is."); inline (str "UE5H")] None
      (network initialWorld)
      (requestOf (InlinePart (base64Data parsed) (mimeType parsed))
         (TextPart PROMPT)) = Normal response /\
    candidates response = Some (first :: others) /\
    content first = Some body /\
    parts body = Some (before ++ part :: after) /\
    Forall (fun p => inlineData p = None) before /\
    inlineData part = Some blob /\ data blob = str "UE5H".
Proof.
  apply (removeImageBackground_returns_inline
           (respond [textOnly (str "Here it is."); inline (str "UE5H")] None)
           typeError pngDataUrl initialWorld).
  reflexivity.
Defined.

Lemma removeImageBackground_remote_failure_witness :
  fst (removeImageBackground (reject (ErrorObject (str "fetch failed")))
         typeError pngDataUrl initialWorld)
  = Throw (ErrorObject (str "API Error: fetch failed"))
  /\ fst (removeImageBackground (reject (OtherValue (str "offline")))
            typeError pngDataUrl initialWorld)
     = Throw (ErrorObject
         (str "An unknown error occurred while communicating with the API."))
  /\ fst (removeImageBackground noCandidates typeError pngDataUrl
            initialWorld)
     = Throw (ErrorObject
         (str "API Error: Cannot read properties of undefined (reading 'content')"))
  /\ fst (removeImageBackground promptBlocked typeError pngDataUrl
            initialWorld)
     = Throw (ErrorObject
         (str "API Error: Cannot read properties of undefined (reading '0')"))
  /\ fst (removeImageBackground (withoutContent (Some (str "SAFETY")))
            typeError pngDataUrl initialWorld)
     = Throw (ErrorObject
         (str "API Error: Cannot read properties of undefined (reading 'parts')"))
  /\ fst (removeImageBackground (withoutParts (Some (str "STOP")))
            typeError pngDataUrl initialWorld)
     = Throw (ErrorObject
         (str "API Error: response.candidates[0].content.parts is not iterable")).
Proof.
  split; [|split; [|split; [|split; [|split]]]].
  - apply (proj1 (removeImageBackground_remote_failure
                    (reject (ErrorObject (str "fetch failed"))) typeError
                    pngDataUrl pngParsed initialWorld eq_refl)).
    reflexivity.
  - apply (proj1 (proj2 (removeImageBackground_remote_failure
                           (reject (OtherValue (str "offline"))) typeError
                           pngDataUrl pngParsed initialWorld eq_refl))
             (str "offline")).
    reflexivity.
  - apply (proj1 (proj2 (proj2 (removeImageBackground_remote_failure
                           noCandidates typeError
                           pngDataUrl pngParsed initialWorld eq_refl)))
             {| candidates := Some [] |}); reflexivity.
  - apply (proj1 (proj2 (proj2 (proj2 (removeImageBackground_remote_failure
                           promptBlocked typeError
                           pngDataUrl pngParsed initialWorld eq_refl))))
             {| candidates := None |}); reflexivity.
  - apply (proj1 (proj2 (proj2 (proj2 (proj2
             (removeImageBackground_remote_failure
                (withoutContent (Some (str "SAFETY"))) typeError
                pngDataUrl pngParsed initialWorld eq_refl)))))
             {| candidates :=
                  Some [{| content := None;
                           finishReason := Some (str "SAFETY") |}] |}
             {| content := None; finishReason := Some (str "SAFETY") |} []);
      reflexivity.
  - apply (proj2 (proj2 (proj2 (proj2 (proj2
             (removeImageBackground_remote_failure
                (withoutParts (Some (str "STOP"))) typeError
                pngDataUrl pngParsed initialWorld eq_refl)))))
             {| candidates :=
                  Some [{| content := Some {| parts := None |};
                           finishReason := Some (str "STOP") |}] |}
             {| content := Some {| parts := None |};
                finishReason := Some (str "STOP") |} []
             {| parts := None |});
      reflexivity.
Defined.


Lemma processFile_fresh_witness :
  ui (snd (processFile (respond [inline (str "UE5H")] None) typeError
             readAsDataUrl pngFile initialWorld))
  = ui (snd (processFile (respond [inline (str "UE5H")] None) typeError
               readAsDataUrl pngFile turnedDown)).
Proof.
  apply (processFile_fresh (respond [inline (str "UE5H")] None) typeError
           readAsDataUrl pngFile initialWorld turnedDown); reflexivity.
Defined.

Lemma interleaved_success_png_witness :
  exists resultBase64,
    Some (str "data:image/png;base64,UE5H")
    = Some (str "data:image/png;base64," ++ resultBase64).
Proof.
  apply (interleaved_success_png
           (respond [inline (str "UE5H")] None) typeError readAsDataUrl
           [Fire (FileChange (Some pngFile)); Settle 0; Fire Reset; Settle 0]
           {| originalImage := None;
              processedImage := Some (str "data:image/png;base64,UE5H");
              appState := success; errorMessage := [] |}).
  - vm_compute. left. reflexivity.
  - reflexivity.
Defined.

Lemma interleaved_error_text_witness :
  str "Please upload a valid image file."
  = str "Please upload a valid image file."
  \/ exists message,
       str "Please upload a valid image file."
       = str "Failed to process image. " ++ message.
Proof.
  apply (interleaved_error_text
           (respond [] None) typeError readAsDataUrl
           [Fire (Drop (Some textFile))]
           {| originalImage := None; processedImage := None;
              appState := error;
              errorMessage := str "Please upload a valid image file." |}).
  - vm_compute. left. reflexivity.
  - reflexivity.
Defined.

Lemma late_answer_after_reset_witness :
  ui (world
        (step (respond [inline (str "UE5H")] None) typeError readAsDataUrl
           (step (respond [inline (str "UE5H")] None) typeError
              readAsDataUrl awaitingAnswer (Fire Reset))
           (Settle 0)))
  = {| originalImage := None;
       processedImage := Some (str "data:image/png;base64,UE5H");
       appState := success; errorMessage := [] |}.
Proof.
  apply (late_answer_after_reset
           (respond [inline (str "UE5H")] None) typeError readAsDataUrl
           awaitingAnswer 0 (str "UE5H")).
  reflexivity.
Defined.

Lemma painted_screen_witness :
  (exists resultBase64,
     body (result (render
       {| originalImage := Some pngDataUrl;
          processedImage := Some (str "data:image/png;base64,UE5H");
          appState := success; errorMessage := [] |}))
     = Children
         (Some (ResultImage (str "data:image/png;base64," ++ resultBase64)))
     /\ handleDownload
          {| originalImage := Some pngDataUrl;
             processedImage := Some (str "data:image/png;base64,UE5H");
             appState := success; errorMessage := [] |}
        = [CreateAnchor;
           SetHref (str "data:image/png;base64," ++ resultBase64);
           SetDownload (str "background-removed.png");
           AppendToBody; Click; RemoveFromBody])
  /\
  (error = error
   /\ (str "Please upload a valid image file."
       = str "Please upload a valid image file."
       \/ exists m,
            str "Please upload a valid image file."
            = str "Failed to process image. " ++ m)).
Proof.
  split.
  2: { apply (proj2 (painted_screen
                  (respond [] None) typeError readAsDataUrl
                  [Fire (Drop (Some textFile))]
                  {| originalImage := None; processedImage := None;
                     appState := error;
                     errorMessage :=
                       str "Please upload a valid image file." |}
                  ltac:(vm_compute; left; reflexivity))).
       reflexivity. }
  apply (proj1 (painted_screen
                  (respond [inline (str "UE5H")] None) typeError
                  readAsDataUrl
                  [Fire (FileChange (Some pngFile)); Settle 0; Settle 0]
                  {| originalImage := Some pngDataUrl;
                     processedImage :=
                       Some (str "data:image/png;base64,UE5H");
                     appState := success; errorMessage := [] |}
                  ltac:(vm_compute; left; reflexivity))).
  reflexivity.
Defined.

End MoreRuns.
